(** * kyber.py: the ML-KEM (CRYSTALS-Kyber) wrapper around liboqs

    The repository consists of one Python module, [kyber.py].  It defines the
    table [KYBER_PARAMS] and the class [KyberKEM], whose methods forward to an
    [oqs.KeyEncapsulation] object of the liboqs-python binding, time the
    call with [time.perf_counter] and log the elapsed time.

    The embedding is shallow.  Python objects are records, the mutable state
    that a method call can touch (the instance [self] and the process-wide
    clock, entropy source and log) is threaded through a small state and
    exception monad, and the liboqs binding, which is not part of the
    repository, is an interface record [Oqs.Class]: statements about the
    wrapper are proved for every implementation of that interface. *)

From Stdlib Require Import ZArith Lia QArith.
From Stdlib Require Import Strings.Byte.
From stdpp Require Import gmap strings list pretty.

Open Scope Z_scope.

(** ** Python values *)

(** [bytes] objects. *)
Abbreviation bytes := (list byte).

#[export] Instance byte_eq_decision : EqDecision byte := λ x y,
  match Byte.eqb x y as b return Byte.eqb x y = b → Decision (x = y) with
  | true => λ e, left (byte_dec_bl x y e)
  | false => λ e, right (eqb_false e)
  end eq_refl.

(** The values stored in the dictionaries of the module. *)
Inductive PyVal :=
| PyStr (s : string)
| PyInt (n : Z)
| PyNone.

(** A raised exception: its class and its message. *)
Record PyExc := mkExc { exc_class : string; exc_msg : string }.

Definition ValueError (msg : string) : PyExc := mkExc "ValueError" msg.
Definition RuntimeError (msg : string) : PyExc := mkExc "RuntimeError" msg.

Definition xor_byte (a b : byte) : byte :=
  default x00 (Byte.of_N (N.lxor (Byte.to_N a) (Byte.to_N b))).

(** Flipping the lowest bit of the byte at position [i]: the smallest change
    that leaves the length of a byte string as it is. *)
Definition flip_bit (i : nat) (b : bytes) : bytes := alter (xor_byte x01) i b.

(** The outcome of a call: a returned value or a raised exception. *)
Inductive result (A : Type) :=
| Return (a : A)
| Raise (e : PyExc).
Arguments Return {A} a.
Arguments Raise {A} e.

Definition is_return {A} (r : result A) : bool :=
  match r with Return _ => true | Raise _ => false end.

(** [repr] of a list of strings, as used inside an f-string:
    [['a', 'b']]. *)
Fixpoint py_join (sep : string) (l : list string) : string :=
  match l with
  | [] => ""
  | [s] => s
  | s :: l' => s +:+ sep +:+ py_join sep l'
  end.

Definition py_repr_str (s : string) : string := "'" +:+ s +:+ "'".

Definition py_repr_list (l : list string) : string :=
  "[" +:+ py_join ", " (py_repr_str <$> l) +:+ "]".

(** [d.get(k)] and [d.get(k, default)]. *)
Definition dict_get (d : gmap string PyVal) (k : string) (default : PyVal) : PyVal :=
  match d !! k with
  | Some v => v
  | None => default
  end.

(** ** The parameter table (kyber.py, lines 22-58) *)

Record KyberParameters := mkParams {
  name : string;
  security_level : Z;
  public_key_bytes : Z;
  secret_key_bytes : Z;
  ciphertext_bytes : Z;
  shared_secret_bytes : Z
}.

(** The items of the dictionary literal, in source order. *)
Definition KYBER_ITEMS : list (string * KyberParameters) :=
  [ ("Kyber512", mkParams "Kyber512" 128 800 1632 768 32);
    ("Kyber768", mkParams "Kyber768" 192 1184 2400 1088 32);
    ("Kyber1024", mkParams "Kyber1024" 256 1568 3168 1568 32) ].

Definition KYBER_PARAMS : gmap string KyberParameters := list_to_map KYBER_ITEMS.

(** [list(KYBER_PARAMS.keys())]: a dictionary iterates in insertion order. *)
Definition KYBER_KEYS : list string := KYBER_ITEMS.*1.

(** ** The liboqs-python binding, as far as the module uses it *)

Module Oqs.

(** The class [oqs.KeyEncapsulation] over a state type [H] (the mechanism
    and the secret key that the object holds).  Every method may raise and
    may change the object.  Key generation and encapsulation consume
    randomness, which is passed in as the bytes drawn for that call. *)
Record Class (H : Type) := {
  new : string → result H;
  generate_keypair : bytes → H → result bytes * H;
  export_secret_key : H → result bytes * H;
  encap_secret : bytes → bytes → H → result (bytes * bytes) * H;
  decap_secret : bytes → H → result bytes * H;
  details : H → gmap string PyVal
}.
Arguments new {H} _ _.
Arguments generate_keypair {H} _ _ _.
Arguments export_secret_key {H} _ _.
Arguments encap_secret {H} _ _ _ _.
Arguments decap_secret {H} _ _ _.
Arguments details {H} _ _.

(** An object: its class and its current state. *)
Record Object (H : Type) := mkObject { cls : Class H; handle : H }.
Arguments mkObject {H} _ _.
Arguments cls {H} _.
Arguments handle {H} _.

End Oqs.

(** ** The world outside the instance *)

(** A call of [logger.debug]: the fixed part of the message and the elapsed
    time it reports.  The clock is read in ticks (an integer), so that the
    difference of two readings is exact; the formatting of the number is not
    modelled. *)
Record LogRecord := mkLog { log_logger : string; log_text : string; log_elapsed : Z }.

Record World := mkWorld {
  clock : nat → Z;          (** the n-th reading of [time.perf_counter] *)
  ticks : nat;              (** readings taken so far *)
  entropy : nat → bytes;    (** the n-th draw from the system's randomness *)
  draws : nat;              (** draws taken so far *)
  log : list LogRecord      (** calls of [logger.debug], latest first *)
}.

(** ** The class KyberKEM (kyber.py, lines 61-153) *)

Section KyberKEM.

Context {H : Type}.

Record KyberKEM := mkKEM {
  variant : string;
  params : KyberParameters;
  kem : Oqs.Object H;
  logger : string
}.

(** The module's [__name__], the name of its logger. *)
Definition module_name : string := "kyber".

(** Methods run on the instance and the world. *)
Definition St : Type := KyberKEM * World.
Definition M (A : Type) : Type := St → result A * St.

#[export] Instance M_ret : MRet M := λ A a s, (Return a, s).
#[export] Instance M_bind : MBind M := λ A B k m s,
  match m s with
  | (Return a, s') => k a s'
  | (Raise e, s') => (Raise e, s')
  end.
Definition raise {A} (e : PyExc) : M A := λ s, (Raise e, s).

(** [time.perf_counter()] *)
Definition perf_counter : M Z :=
  λ '(self, w),
    (Return (clock w (ticks w)),
     (self, mkWorld (clock w) (S (ticks w)) (entropy w) (draws w) (log w))).

(** The bytes that the next randomised call of the binding draws. *)
Definition os_random : M bytes :=
  λ '(self, w),
    (Return (entropy w (draws w)),
     (self, mkWorld (clock w) (ticks w) (entropy w) (S (draws w)) (log w))).

(** [self.logger.debug(...)] *)
Definition logger_debug (text : string) (elapsed : Z) : M unit :=
  λ '(self, w),
    (Return tt,
     (self, mkWorld (clock w) (ticks w) (entropy w) (draws w)
                    (mkLog (logger self) text elapsed :: log w))).

(** A method call on [self.kem]: the object is updated in place, also when
    the method raises. *)
Definition kem_call {A} (m : Oqs.Class H → H → result A * H) : M A :=
  λ '(self, w),
    let '(r, h') := m (Oqs.cls (kem self)) (Oqs.handle (kem self)) in
    (r, (mkKEM (variant self) (params self)
               (Oqs.mkObject (Oqs.cls (kem self)) h') (logger self), w)).

(** [KyberKEM.__init__] (lines 69-86).  [oqs] is the module-level name: the
    imported binding, or [None] when the import failed. *)
Definition __init__ (oqs : option (Oqs.Class H)) (variant : string) : result KyberKEM :=
  match KYBER_PARAMS !! variant with
  | None => Raise (ValueError ("Invalid variant. Choose from " +:+ py_repr_list KYBER_KEYS))
  | Some p =>
      match oqs with
      | None => Raise (RuntimeError "liboqs-python not available. Cannot initialize Kyber.")
      | Some c =>
          match Oqs.new c variant with
          | Raise e => Raise e
          | Return h => Return (mkKEM variant p (Oqs.mkObject c h) module_name)
          end
      end
  end.

(** [KyberKEM.generate_keypair] (lines 88-102) *)
Definition generate_keypair : M (bytes * bytes) :=
  start_time ← perf_counter;
  coins ← os_random;
  public_key ← kem_call (λ c, Oqs.generate_keypair c coins);
  secret_key ← kem_call Oqs.export_secret_key;
  now ← perf_counter;
  logger_debug "Keypair generation took" (now - start_time);;
  mret (public_key, secret_key).

(** [KyberKEM.encapsulate] (lines 104-120) *)
Definition encapsulate (public_key : bytes) : M (bytes * bytes) :=
  start_time ← perf_counter;
  coins ← os_random;
  r ← kem_call (λ c, Oqs.encap_secret c coins public_key);
  now ← perf_counter;
  logger_debug "Encapsulation took" (now - start_time);;
  mret r.

(** [KyberKEM.decapsulate] (lines 122-139).  The parameter [secret_key]
    does not occur in the body. *)
Definition decapsulate (ciphertext : bytes) (secret_key : bytes) : M bytes :=
  start_time ← perf_counter;
  shared_secret ← kem_call (λ c, Oqs.decap_secret c ciphertext);
  now ← perf_counter;
  logger_debug "Decapsulation took" (now - start_time);;
  mret shared_secret.

(** [KyberKEM.get_algorithm_info] (lines 141-153) *)
Definition algorithm_info (self : KyberKEM) : gmap string PyVal :=
  let d := Oqs.details (Oqs.cls (kem self)) (Oqs.handle (kem self)) in
  list_to_map
    [ ("algorithm", PyStr "ML-KEM (CRYSTALS-Kyber)");
      ("variant", PyStr (variant self));
      ("nist_level", PyInt (security_level (params self)));
      ("public_key_size", PyInt (public_key_bytes (params self)));
      ("secret_key_size", PyInt (secret_key_bytes (params self)));
      ("ciphertext_size", PyInt (ciphertext_bytes (params self)));
      ("shared_secret_size", PyInt (shared_secret_bytes (params self)));
      ("claimed_nist_level", dict_get d "claimed_nist_level" PyNone);
      ("version", dict_get d "version" (PyStr "unknown")) ].

Definition get_algorithm_info : M (gmap string PyVal) :=
  λ '(self, w), (Return (algorithm_info self), (self, w)).

End KyberKEM.

Arguments KyberKEM H : clear implicits.
Arguments St H : clear implicits.

(** ** Sequences of method calls *)

(** The calls a client can make on an instance. *)
Inductive Call :=
| CallGenerateKeypair
| CallEncapsulate (public_key : bytes)
| CallDecapsulate (ciphertext secret_key : bytes)
| CallGetAlgorithmInfo.

(** The instance and the world after a call, whether it returned or raised. *)
Definition exec {H} (c : Call) (s : St H) : St H :=
  match c with
  | CallGenerateKeypair => (generate_keypair s).2
  | CallEncapsulate pk => (encapsulate pk s).2
  | CallDecapsulate ct sk => (decapsulate ct sk s).2
  | CallGetAlgorithmInfo => (get_algorithm_info s).2
  end.

(** The instances a program can hold: built by the constructor with the name
    [v], then used through any number of calls, in any world. *)
Inductive reachable {H} (oqs : option (Oqs.Class H)) (v : string) : KyberKEM H → Prop :=
| reach_init self :
    __init__ oqs v = Return self → reachable oqs v self
| reach_call self c w :
    reachable oqs v self → reachable oqs v (exec c (self, w)).1.

(** ** Instances and worlds after a call *)

Section After.

Context {H : Type}.
Implicit Types (self : KyberKEM H) (w : World).

(** The instance after a call of a method of [self.kem] that left the
    object in state [h]. *)
Definition with_handle self (h : H) : KyberKEM H :=
  mkKEM (variant self) (params self)
        (Oqs.mkObject (Oqs.cls (kem self)) h) (logger self).

(** The world after a timed call that returned: two readings of the
    clock, one record in the log. *)
Definition timed (rand : nat) (text : string) self w : World :=
  mkWorld (clock w) (S (S (ticks w))) (entropy w) (rand + draws w)
          (mkLog (logger self) text (clock w (S (ticks w)) - clock w (ticks w)) :: log w).

(** The world after a timed call that raised: one reading of the clock,
    nothing logged. *)
Definition aborted (rand : nat) w : World :=
  mkWorld (clock w) (S (ticks w)) (entropy w) (rand + draws w) (log w).

End After.

(** ** Client programs *)

Section Clients.

Context {H : Type}.

(** One round of the loop of [KyberKEM.benchmark] (lines 169-186), without
    the bookkeeping of the three lists of times. *)
Definition benchmark_round : M (H:=H) unit :=
  '(pk, sk) ← generate_keypair;
  '(ct, ss_enc) ← encapsulate pk;
  ss_dec ← decapsulate ct sk;
  if decide (ss_enc = ss_dec) then mret tt
  else raise (mkExc "AssertionError" "Shared secret mismatch!").

(** A client that generates a key pair, generates another one on the same
    instance, and then uses the first pair: it encapsulates to the first
    public key and decapsulates with the first secret key.  It returns the
    encapsulated and the decapsulated secret. *)
Definition stale_key_client : M (H:=H) (bytes * bytes) :=
  '(pk1, sk1) ← generate_keypair;
  _ ← generate_keypair;
  '(ct, ss) ← encapsulate pk1;
  ss' ← decapsulate ct sk1;
  mret (ss, ss').

(** A client that decapsulates a tampered ciphertext three times with the
    same secret key: twice in a row, and once more after the instance has
    generated another key pair.  It returns the ciphertext, the tampered
    one, the encapsulated secret and the three results. *)
Definition tamper_client (i : nat) :
    M (H:=H) (bytes * bytes * bytes * (bytes * bytes * bytes)) :=
  '(pk, sk) ← generate_keypair;
  '(ct, ss) ← encapsulate pk;
  r0 ← decapsulate (flip_bit i ct) sk;
  r1 ← decapsulate (flip_bit i ct) sk;
  _ ← generate_keypair;
  r2 ← decapsulate (flip_bit i ct) sk;
  mret (ct, flip_bit i ct, ss, (r0, r1, r2)).

(** A client that encapsulates to a public key that lacks its last byte.
    It returns the key it passed and what encapsulate returned. *)
Definition short_key_client : M (H:=H) (bytes * (bytes * bytes)) :=
  '(pk, sk) ← generate_keypair;
  r ← encapsulate (take (length pk - 1) pk);
  mret (take (length pk - 1) pk, r).

(** A client that decapsulates a ciphertext with an empty secret key, and
    then the ciphertext without its last byte with the whole secret key.
    It returns the encapsulated secret, the shortened ciphertext and the
    two results. *)
Definition short_input_client : M (H:=H) (bytes * bytes * bytes * bytes) :=
  '(pk, sk) ← generate_keypair;
  '(ct, ss) ← encapsulate pk;
  r1 ← decapsulate ct [];
  r2 ← decapsulate (take (length ct - 1) ct) sk;
  mret (ss, take (length ct - 1) ct, r1, r2).

(** A program run on a new instance for the parameter set [v]. *)
Definition session {A} (oqs : option (Oqs.Class H)) (v : string) (w : World)
    (prog : M (H:=H) A) : result A :=
  match __init__ oqs v with
  | Raise e => Raise e
  | Return self => (prog (self, w)).1
  end.

End Clients.

(** The names of the three parameter sets. *)
Definition known_variant (v : string) : Prop :=
  v = "Kyber512" ∨ v = "Kyber768" ∨ v = "Kyber1024".

(** ** The sizes that the KEM core produces *)

(** Modelled from the spec: the byte sizes of the KEM core's outputs.  The
    core is liboqs, which the module calls and the repository does not
    contain; section 6 of the specification fixes, per parameter set, the
    sizes of public key, secret key, ciphertext and shared secret. *)
Definition spec_sizes (v : string) : option (nat * nat * nat * nat) :=
  if String.eqb v "Kyber512" then Some (800, 1632, 768, 32)%nat
  else if String.eqb v "Kyber768" then Some (1184, 2400, 1088, 32)%nat
  else if String.eqb v "Kyber1024" then Some (1568, 3168, 1568, 32)%nat
  else None.

Definition pk_size (v : string) : nat := from_option (λ t, t.1.1.1) 0%nat (spec_sizes v).
Definition sk_size (v : string) : nat := from_option (λ t, t.1.1.2) 0%nat (spec_sizes v).
Definition ct_size (v : string) : nat := from_option (λ t, t.1.2) 0%nat (spec_sizes v).
Definition ss_size (v : string) : nat := from_option (λ t, t.2) 0%nat (spec_sizes v).

(** ** A reference implementation of the binding's interface *)

(** Modelled from the spec: a small KEM with the structure of section 4.7
    (key pair with cached hash and rejection value, encapsulation by
    encrypting a random message with derived coins, decapsulation by
    re-encryption with implicit rejection) and the sizes of section 6, over
    stand-in primitives.  It takes the place of liboqs where a statement is
    evaluated on concrete byte strings; it makes no claim to security. *)
Module RefOqs.

Record Handle := mkHandle { alg_name : string; secret_key : option bytes }.

Definition xor_bytes (a b : bytes) : bytes := zip_with xor_byte a b.

Definition byte_of_N (n : N) : byte := default x00 (Byte.of_N (n mod 256)%N).

(** The stand-in for the hash functions: 32 bytes that start out as the
    domain-separation tag; every input byte is mixed into one position,
    by a bijection of the byte values, and carried into the next. *)
Definition mix (a b : byte) (i : nat) : byte :=
  byte_of_N ((Byte.to_N a + Byte.to_N b + N.of_nat i) * 167 + 13)%N.

Fixpoint absorb (acc : bytes) (i : nat) (data : bytes) : bytes :=
  match data with
  | [] => acc
  | b :: data' =>
      let j := (i mod 32)%nat in
      let a := mix (default x00 (acc !! j)) b i in
      absorb (alter (xor_byte a) (S j mod 32)%nat (<[j:=a]> acc)) (S i) data'
  end.

Definition digest (tag : byte) (data : bytes) : bytes :=
  absorb (replicate 32 tag) 0 data.

Definition Hash : bytes → bytes := digest x01.
Definition Kbar : bytes → bytes := digest x02.
Definition Coins : bytes → bytes := digest x03.
Definition KDF : bytes → bytes := digest x04.

(** The stand-in for the encryption primitive: the public value is derived
    from the secret one, and the message is masked by both the public
    value and the coins. *)
Definition public_of (s : bytes) : bytes := digest x05 s.

Definition pke_encrypt (v : string) (pk m coins : bytes) : bytes :=
  resize (ct_size v) x00 (coins ++ xor_bytes (xor_bytes m (take 32 pk)) coins).

Definition pke_decrypt (s ct : bytes) : bytes :=
  xor_bytes (xor_bytes (take 32 (drop 32 ct)) (public_of s)) (take 32 ct).

(** Marshalling of a [bytes] argument into a buffer of fixed size: a
    shorter value is padded with zero bytes, a longer one is refused. *)
Definition buffer (n : nat) (b : bytes) : result bytes :=
  if decide (length b ≤ n)%nat then Return (resize n x00 b)
  else Raise (ValueError "byte string too long").

Definition new (v : string) : result Handle :=
  match spec_sizes v with
  | Some _ => Return (mkHandle v None)
  | None => Raise (mkExc "MechanismNotSupportedError" (v +:+ " is not supported by OQS"))
  end.

(** Secret-key layout: secret value, public key, hash of the public key,
    rejection value. *)
Definition generate_keypair (draw : bytes) (h : Handle) : result bytes * Handle :=
  let v := alg_name h in
  let d := resize 64 x00 draw in
  let s := take 32 d in
  let z := drop 32 d in
  let pk := resize (pk_size v) x00 (public_of s) in
  let sk := resize (sk_size v - pk_size v - 64) x00 s ++ pk ++ Hash pk ++ z in
  (Return pk, mkHandle v (Some sk)).

Definition export_secret_key (h : Handle) : result bytes * Handle :=
  match secret_key h with
  | Some sk => (Return sk, h)
  | None => (Raise (RuntimeError "no secret key"), h)
  end.

Definition encaps (v : string) (pk m : bytes) : bytes * bytes :=
  let hpk := Hash pk in
  let ct := pke_encrypt v pk m (Coins (m ++ hpk)) in
  (ct, KDF (Kbar (m ++ hpk) ++ Hash ct)).

Definition encap_secret (draw public_key : bytes) (h : Handle) :
    result (bytes * bytes) * Handle :=
  match buffer (pk_size (alg_name h)) public_key with
  | Raise e => (Raise e, h)
  | Return pk => (Return (encaps (alg_name h) pk (resize 32 x00 draw)), h)
  end.

Definition decaps (v : string) (sk ct : bytes) : bytes :=
  let n := (sk_size v - pk_size v - 64)%nat in
  let s := take 32 sk in
  let pk := take (pk_size v) (drop n sk) in
  let hpk := take 32 (drop (n + pk_size v) sk) in
  let z := drop (n + pk_size v + 32) sk in
  let m' := pke_decrypt s ct in
  let ct' := pke_encrypt v pk m' (Coins (m' ++ hpk)) in
  if decide (ct' = ct) then KDF (Kbar (m' ++ hpk) ++ Hash ct)
  else KDF (z ++ Hash ct).

Definition decap_secret (ciphertext : bytes) (h : Handle) : result bytes * Handle :=
  match secret_key h with
  | None => (Raise (RuntimeError "no secret key"), h)
  | Some sk =>
      match buffer (ct_size (alg_name h)) ciphertext with
      | Raise e => (Raise e, h)
      | Return ct => (Return (decaps (alg_name h) sk ct), h)
      end
  end.

Definition details (h : Handle) : gmap string PyVal :=
  {[ "name" := PyStr (alg_name h);
     "version" := PyStr "ref";
     "length_public_key" := PyInt (Z.of_nat (pk_size (alg_name h)));
     "length_secret_key" := PyInt (Z.of_nat (sk_size (alg_name h)));
     "length_ciphertext" := PyInt (Z.of_nat (ct_size (alg_name h)));
     "length_shared_secret" := PyInt (Z.of_nat (ss_size (alg_name h))) ]}.

Definition KeyEncapsulation : Oqs.Class Handle :=
  {| Oqs.new := new;
     Oqs.generate_keypair := generate_keypair;
     Oqs.export_secret_key := export_secret_key;
     Oqs.encap_secret := encap_secret;
     Oqs.decap_secret := decap_secret;
     Oqs.details := details |}.

(** A world for the examples: the clock advances by seven ticks per
    reading, the n-th draw of randomness is 64 bytes that depend on n. *)
Definition world0 : World :=
  mkWorld (λ n, 7 * Z.of_nat n) 0
          (λ n, (byte_of_N ∘ N.of_nat) <$> seq (17 * n + 3) 64) 0 [].

End RefOqs.

(** ** A binding with other sizes *)

(** An implementation of the binding's interface whose byte strings have
    none of the sizes of section 6: for every mechanism name a public key
    of one byte, a secret key of two, a ciphertext of three and a shared
    secret of four.  The module inspects neither the object that the name
    [oqs] is bound to nor what its methods return. *)
Module StubOqs.

Definition new (v : string) : result unit := Return ().

Definition generate_keypair (draw : bytes) (h : unit) : result bytes * unit :=
  (Return [x01], h).

Definition export_secret_key (h : unit) : result bytes * unit :=
  (Return [x02; x02], h).

Definition encap_secret (draw public_key : bytes) (h : unit) :
    result (bytes * bytes) * unit :=
  (Return ([x03; x03; x03], [x04; x04; x04; x04]), h).

Definition decap_secret (ciphertext : bytes) (h : unit) : result bytes * unit :=
  (Return [x04; x04; x04; x04], h).

Definition KeyEncapsulation : Oqs.Class unit :=
  {| Oqs.new := new;
     Oqs.generate_keypair := generate_keypair;
     Oqs.export_secret_key := export_secret_key;
     Oqs.encap_secret := encap_secret;
     Oqs.decap_secret := decap_secret;
     Oqs.details := λ _, ∅ |}.

End StubOqs.

(** ** The number-theoretic transform *)

(** The transform belongs to the KEM core, which the module reaches through
    liboqs and the repository does not contain. *)
Module NTT.

(** Modelled from the spec: the modulus and the length of a polynomial
    (sections 3 and 4.1). *)
Definition q : Z := 3329.
Definition N : nat := 256.

(** Modelled from the spec: a representable polynomial, 256 coefficients
    in [0, q) (section 3). *)
Definition poly (f : list Z) : Prop :=
  length f = N ∧ Forall (λ x, 0 ≤ x < q) f.

(** Modelled from the spec: the primitive root of the standard Kyber
    transform, of order 256 modulo q. *)
Definition zeta : Z := 17.

(** The index of a table entry, its seven bits reversed. *)
Definition bitrev7 (i : Z) : Z :=
  foldr (λ k r, if Z.testbit i k then r + 2 ^ (6 - k) else r) 0 [0; 1; 2; 3; 4; 5; 6].

(** Modelled from the spec: the fixed table of powers of the primitive
    root (section 4.2), in the standard order: entry i is zeta to the
    bit-reversed i. *)
Definition zetas : list Z :=
  Eval vm_compute in (λ i, zeta ^ bitrev7 (Z.of_nat i) mod q) <$> seq 0 128.

(** One block of a layer: the low half and the high half of the block
    are combined coefficient by coefficient. *)
Definition butterfly (z : Z) (lo hi : list Z) : list Z :=
  zip_with (λ a b, (a + z * b) mod q) lo hi ++
  zip_with (λ a b, (a - z * b) mod q) lo hi.

Definition inv_butterfly (z : Z) (lo hi : list Z) : list Z :=
  zip_with (λ a b, (a + b) mod q) lo hi ++
  zip_with (λ a b, (z * (b - a)) mod q) lo hi.

(** A layer: consecutive blocks of [len + len] coefficients, one table
    entry per block. *)
Fixpoint blocks (op : Z → list Z → list Z → list Z)
    (len : nat) (zs : list Z) (f : list Z) : list Z :=
  match zs with
  | [] => f
  | z :: zs' =>
      op z (take len f) (take len (drop len f)) ++
      blocks op len zs' (drop (len + len) f)
  end.

(** Layer l (0 to 6) has 2^l blocks, of half-length 128 / 2^l, and uses the
    table entries 2^l to 2^(l+1) - 1. *)
Definition layer_len (l : nat) : nat := (2 ^ (7 - l))%nat.
Definition layer_zetas (l : nat) : list Z := take (2 ^ l) (drop (2 ^ l) zetas).

Definition fwd_layer (f : list Z) (l : nat) : list Z :=
  blocks butterfly (layer_len l) (layer_zetas l) f.

(** The inverse walks the blocks of a layer upwards and the table
    downwards. *)
Definition inv_layer (f : list Z) (l : nat) : list Z :=
  blocks inv_butterfly (layer_len l) (reverse (layer_zetas l)) f.

(** Modelled from the spec: the forward transform (section 4.2), a
    butterfly network over the table of zetas.  Section 4.2 asks for the
    incomplete transform of the standard, which stops at blocks of degree 2
    and is not a full 256-point transform: that is the seven layers from
    half-length 128 down to 2 (an eighth layer, which the section's count
    of log2(256) suggests, would make it the full transform). *)
Definition ForwardNTT (f : list Z) : list Z :=
  foldl fwd_layer f (seq 0 7).

(** Modelled from the spec: the inverse transform (section 4.2), which
    undoes the layers in the opposite order and scales by the inverse of
    128 modulo q, which is 3303. *)
Definition InverseNTT (f : list Z) : list Z :=
  (λ x, (x * 3303) mod q) <$> foldl inv_layer f (reverse (seq 0 7)).

(** The polynomial with the coefficients 0, 1, ..., 255. *)
Definition ramp : list Z := Z.of_nat <$> seq 0 256.

(** [x] is congruent to [c * y] modulo q. *)
Definition cong (c x y : Z) : Prop := x mod q = (c * y) mod q.

(** Two table entries whose product is -1 modulo q. *)
Definition inverse_pair (z z' : Z) : Prop := (z * z') mod q = (-1) mod q.

(** A layer covers the 256 coefficients, and each of its table entries,
    taken upwards, pairs with the entry at the same place taken
    downwards. *)
Definition layer_ok (l : nat) : Prop :=
  (length (layer_zetas l) * (layer_len l + layer_len l))%nat = N ∧
  Forall2 inverse_pair (layer_zetas l) (reverse (layer_zetas l)).

End NTT.

(** ** The benchmark (kyber.py, lines 155-200) *)

(** The values of the dictionary that [benchmark] returns.  The times are
    Python floats; they are kept as exact rationals of clock ticks, so that
    no statement depends on rounding. *)
Inductive StatVal :=
| StatStr (s : string)
| StatInt (n : Z)
| StatFloat (x : Q).

#[export] Instance result_ret : MRet result := λ A a, Return a.
#[export] Instance result_bind : MBind result := λ A B k r,
  match r with
  | Return a => k a
  | Raise e => Raise e
  end.

Definition AssertionError (msg : string) : PyExc := mkExc "AssertionError" msg.
Definition ZeroDivisionError (msg : string) : PyExc := mkExc "ZeroDivisionError" msg.
Definition KeyError (key : string) : PyExc := mkExc "KeyError" (py_repr_str key).

(** The built-ins [sum], [min] and [max] on a list of numbers.  The message
    of the ValueError is that of CPython up to 3.11; later versions word it
    differently. *)
Definition py_sum (l : list Z) : Z := foldl Z.add 0 l.

Definition py_min (l : list Z) : result Z :=
  match l with
  | [] => Raise (ValueError "min() arg is an empty sequence")
  | x :: l' => Return (foldl Z.min x l')
  end.

Definition py_max (l : list Z) : result Z :=
  match l with
  | [] => Raise (ValueError "max() arg is an empty sequence")
  | x :: l' => Return (foldl Z.max x l')
  end.

(** [a / b] on numbers. *)
Definition py_truediv (a b : Z) : result Q :=
  if decide (b = 0) then Raise (ZeroDivisionError "division by zero")
  else Return (inject_Z a / inject_Z b)%Q.

(** [x * 1000] *)
Definition ms (x : Q) : StatVal := StatFloat (x * 1000)%Q.

(** The dictionary display of lines 188-200: the values are evaluated in
    source order, so the first expression that raises decides the
    exception. *)
Definition summary (variant : string) (iterations : Z)
    (keygen_times encap_times decap_times : list Z) : result (gmap string StatVal) :=
  keygen_avg ← py_truediv (py_sum keygen_times) iterations;
  keygen_min ← py_min keygen_times;
  keygen_max ← py_max keygen_times;
  encap_avg ← py_truediv (py_sum encap_times) iterations;
  encap_min ← py_min encap_times;
  encap_max ← py_max encap_times;
  decap_avg ← py_truediv (py_sum decap_times) iterations;
  decap_min ← py_min decap_times;
  decap_max ← py_max decap_times;
  mret (list_to_map
    [ ("variant", StatStr variant);
      ("iterations", StatInt iterations);
      ("keygen_avg_ms", ms keygen_avg);
      ("keygen_min_ms", ms (inject_Z keygen_min));
      ("keygen_max_ms", ms (inject_Z keygen_max));
      ("encap_avg_ms", ms encap_avg);
      ("encap_min_ms", ms (inject_Z encap_min));
      ("encap_max_ms", ms (inject_Z encap_max));
      ("decap_avg_ms", ms decap_avg);
      ("decap_min_ms", ms (inject_Z decap_min));
      ("decap_max_ms", ms (inject_Z decap_max)) ]).

Section Benchmark.

Context {H : Type}.

(** An expression over the attributes of [self], which may raise. *)
Definition with_self {A} (f : KyberKEM H → result A) : M (H:=H) A :=
  λ '(self, w), (f self, (self, w)).

(** The loop of lines 169-186, [n] rounds to go.  [debug] is Python's
    [__debug__]: the assert statement of line 186 is executed unless the
    interpreter runs with -O. *)
Fixpoint benchmark_loop (debug : bool) (n : nat)
    (keygen_times encap_times decap_times : list Z) :
    M (H:=H) (list Z * list Z * list Z) :=
  match n with
  | O => mret (keygen_times, encap_times, decap_times)
  | S n' =>
      start ← perf_counter;
      '(pk, sk) ← generate_keypair;
      now ← perf_counter;
      let keygen_times := keygen_times ++ [now - start] in
      start ← perf_counter;
      '(ct, ss_enc) ← encapsulate pk;
      now ← perf_counter;
      let encap_times := encap_times ++ [now - start] in
      start ← perf_counter;
      ss_dec ← decapsulate ct sk;
      now ← perf_counter;
      let decap_times := decap_times ++ [now - start] in
      if debug && negb (bool_decide (ss_enc = ss_dec))
      then raise (AssertionError "Shared secret mismatch!")
      else benchmark_loop debug n' keygen_times encap_times decap_times
  end.

(** [KyberKEM.benchmark] (lines 155-200).  [range(iterations)] is empty
    for an [iterations] that is not positive. *)
Definition benchmark (debug : bool) (iterations : Z) : M (H:=H) (gmap string StatVal) :=
  '(keygen_times, encap_times, decap_times) ←
    benchmark_loop debug (Z.to_nat iterations) [] [] [];
  with_self (λ self,
    summary (variant self) iterations keygen_times encap_times decap_times).

End Benchmark.

(** ** Sequences of calls and what they log *)

(** From the state [s] to the state [s'], the attributes of the instance
    other than the state of [self.kem] are as they were, and [k] records
    were logged. *)
Definition logged {H} (k : nat) (s s' : St H) : Prop :=
  variant s'.1 = variant s.1 ∧ params s'.1 = params s.1 ∧
  logger s'.1 = logger s.1 ∧ Oqs.cls (kem s'.1) = Oqs.cls (kem s.1) ∧
  length (log s'.2) = (k + length (log s.2))%nat.

(** Whether a call returns. *)
Definition returns {H} (c : Call) (s : St H) : bool :=
  match c with
  | CallGenerateKeypair => is_return (generate_keypair s).1
  | CallEncapsulate pk => is_return (encapsulate pk s).1
  | CallDecapsulate ct sk => is_return (decapsulate ct sk s).1
  | CallGetAlgorithmInfo => is_return (get_algorithm_info s).1
  end.

(** The text of the record that a call logs when it returns. *)
Definition log_text_of (c : Call) : option string :=
  match c with
  | CallGenerateKeypair => Some "Keypair generation took"
  | CallEncapsulate _ => Some "Encapsulation took"
  | CallDecapsulate _ _ => Some "Decapsulation took"
  | CallGetAlgorithmInfo => None
  end.

(** A client that makes the calls of a list one after the other and goes
    on after a call that raised (it catches the exception).  The result is
    the state at the end and, latest first, the texts that the calls which
    returned are expected to have logged. *)
Fixpoint run_calls {H} (cs : list Call) (s : St H) (texts : list string) :
    St H * list string :=
  match cs with
  | [] => (s, texts)
  | c :: cs' =>
      run_calls cs' (exec c s)
        (if returns c s then from_option (λ t, t :: texts) texts (log_text_of c)
         else texts)
  end.

(** ** The round trip that the KEM core owes *)

(** Modelled from the spec: the round trip of section 8, as a demand on an
    implementation of the binding's interface (liboqs, which the repository
    does not contain).  [I h] says that [h] is the state of a usable object
    and [holds pk h] that the object holds the secret key that belongs to
    the public key [pk].  The constructor gives a usable object and every
    method keeps it usable; key generation makes the object hold the key of
    the public key it returns; exporting the key keeps it held; and a
    secret encapsulated to the public key of the held key is recovered by a
    decapsulation that follows. *)
Record round_trips {H} (c : Oqs.Class H) (I : H → Prop) (holds : bytes → H → Prop) : Prop := {
  rt_new v h : Oqs.new c v = Return h → I h;
  rt_usable_keygen d h : I h → I (Oqs.generate_keypair c d h).2;
  rt_usable_export h : I h → I (Oqs.export_secret_key c h).2;
  rt_usable_encap d pk h : I h → I (Oqs.encap_secret c d pk h).2;
  rt_usable_decap ct h : I h → I (Oqs.decap_secret c ct h).2;
  rt_keygen d h pk :
    I h → (Oqs.generate_keypair c d h).1 = Return pk →
    holds pk (Oqs.generate_keypair c d h).2;
  rt_export pk h : holds pk h → holds pk (Oqs.export_secret_key c h).2;
  rt_decap d pk h ct ss ss' :
    holds pk h →
    (Oqs.encap_secret c d pk h).1 = Return (ct, ss) →
    (Oqs.decap_secret c ct (Oqs.encap_secret c d pk h).2).1 = Return ss' →
    ss' = ss
}.

(** Modelled from the spec: section 7 has no failure of an operation on
    correctly sized inputs, as a demand on an implementation of the
    binding's interface: the constructor returns an object for each of the
    three parameter sets, and a usable object generates a key pair, exports the
    key it holds, encapsulates to the public key of that key, and
    decapsulates the ciphertext it has just produced. *)
Record answers {H} (c : Oqs.Class H) (I : H → Prop) (holds : bytes → H → Prop) : Prop := {
  ans_new v : known_variant v → ∃ h, Oqs.new c v = Return h;
  ans_keygen d h : I h → ∃ pk, (Oqs.generate_keypair c d h).1 = Return pk;
  ans_export pk h : holds pk h → ∃ sk, (Oqs.export_secret_key c h).1 = Return sk;
  ans_encap d pk h : holds pk h → ∃ ct ss, (Oqs.encap_secret c d pk h).1 = Return (ct, ss);
  ans_decap d pk h ct ss :
    holds pk h →
    (Oqs.encap_secret c d pk h).1 = Return (ct, ss) →
    ∃ ss', (Oqs.decap_secret c ct (Oqs.encap_secret c d pk h).2).1 = Return ss'
}.

(** The object of an instance is of the class [c] and usable. *)
Definition ready {H} (c : Oqs.Class H) (I : H → Prop) (self : KyberKEM H) : Prop :=
  Oqs.cls (kem self) = c ∧ I (Oqs.handle (kem self)).

(** The two relations for the reference implementation: the mechanism is
    one of the three, and the secret key has the layout that key generation
    gives it, around a secret value of 32 bytes. *)
Definition ref_usable (h : RefOqs.Handle) : Prop :=
  is_Some (spec_sizes (RefOqs.alg_name h)).

Definition ref_holds (pk : bytes) (h : RefOqs.Handle) : Prop :=
  let v := RefOqs.alg_name h in
  is_Some (spec_sizes v) ∧
  ∃ s z, length s = 32%nat ∧
    pk = resize (pk_size v) x00 (RefOqs.public_of s) ∧
    RefOqs.secret_key h =
      Some (resize (sk_size v - pk_size v - 64) x00 s ++ pk ++ RefOqs.Hash pk ++ z).

(** ** The demonstration (kyber.py, lines 203-224) *)

(** A line written by [print]: a string, or a string around a number that
    is formatted with three decimals (the formatting is not modelled). *)
Inductive OutLine :=
| OutText (s : string)
| OutFormatted (before : string) (value : StatVal) (after : string).

(** The line without its number. *)
Definition skeleton (l : OutLine) : string :=
  match l with
  | OutText s => s
  | OutFormatted before _ after => before +:+ "{:.3f}" +:+ after
  end.

(** The newline character. *)
Definition nl : string := String (Ascii.ascii_of_nat 10) "".

(** The lines, without their numbers, that [main] prints for a parameter
    set. *)
Definition demo_lines (variant level pk_bytes ct_bytes : string) : list string :=
  [ nl +:+ "--- " +:+ variant +:+ " ---";
    "Security Level: AES-" +:+ level;
    "Public Key: " +:+ pk_bytes +:+ " bytes";
    "Ciphertext: " +:+ ct_bytes +:+ " bytes";
    nl +:+ "Running quick benchmark (100 iterations)...";
    "KeyGen:  {:.3f}ms";
    "Encap:   {:.3f}ms";
    "Decap:   {:.3f}ms" ].

(** [str] of a value, as an f-string inserts it. *)
Definition py_str (v : PyVal) : string :=
  match v with
  | PyStr s => s
  | PyInt n => pretty n
  | PyNone => "None"
  end.

(** [d[k]] *)
Definition dict_item {V} (d : gmap string V) (k : string) : result V :=
  match d !! k with
  | Some v => Return v
  | None => Raise (KeyError k)
  end.

Section Main.

Context {H : Type}.

(** [main] runs on the world and the lines printed so far; the instances
    it builds are local variables. *)
Definition Main (A : Type) : Type :=
  World * list OutLine → result A * (World * list OutLine).

#[export] Instance Main_ret : MRet Main := λ A a s, (Return a, s).
#[export] Instance Main_bind : MBind Main := λ A B k m s,
  match m s with
  | (Return a, s') => k a s'
  | (Raise e, s') => (Raise e, s')
  end.

Definition print (l : OutLine) : Main unit :=
  λ '(w, out), (Return tt, (w, out ++ [l])).

(** An expression that may raise. *)
Definition eval {A} (r : result A) : Main A := λ s, (r, s).

(** A method call on the local instance [kem]; the instance is updated in
    place, also when the method raises. *)
Definition call {A} (kem : KyberKEM H) (m : M (H:=H) A) : Main (A * KyberKEM H) :=
  λ '(w, out),
    let '(r, (kem', w')) := m (kem, w) in
    (match r with
     | Return a => Return (a, kem')
     | Raise e => Raise e
     end, (w', out)).

(** The body of the loop of lines 209-224. *)
Definition main_variant (debug : bool) (oqs : option (Oqs.Class H)) (variant : string) :
    Main unit :=
  print (OutText (nl +:+ "--- " +:+ variant +:+ " ---"));;
  kem ← eval (__init__ oqs variant);
  '(info, kem) ← call kem get_algorithm_info;
  level ← eval (dict_item info "nist_level");
  print (OutText ("Security Level: AES-" +:+ py_str level));;
  pk_size ← eval (dict_item info "public_key_size");
  print (OutText ("Public Key: " +:+ py_str pk_size +:+ " bytes"));;
  ct_size ← eval (dict_item info "ciphertext_size");
  print (OutText ("Ciphertext: " +:+ py_str ct_size +:+ " bytes"));;
  print (OutText (nl +:+ "Running quick benchmark (100 iterations)..."));;
  '(results, kem) ← call kem (benchmark debug 100);
  keygen ← eval (dict_item results "keygen_avg_ms");
  print (OutFormatted "KeyGen:  " keygen "ms");;
  encap ← eval (dict_item results "encap_avg_ms");
  print (OutFormatted "Encap:   " encap "ms");;
  decap ← eval (dict_item results "decap_avg_ms");
  print (OutFormatted "Decap:   " decap "ms").

Fixpoint main_loop (debug : bool) (oqs : option (Oqs.Class H)) (variants : list string) :
    Main unit :=
  match variants with
  | [] => mret tt
  | variant :: variants' =>
      main_variant debug oqs variant;;
      main_loop debug oqs variants'
  end.

(** [main] (lines 203-224).  [logging.basicConfig] sets the level of the
    log output and has no effect on what is modelled. *)
Definition main (debug : bool) (oqs : option (Oqs.Class H)) : Main unit :=
  print (OutText ("=== CRYSTALS-Kyber KEM Demo ===" +:+ nl));;
  main_loop debug oqs ["Kyber512"; "Kyber768"; "Kyber1024"].

End Main.

(** * Properties *)

(** ** The parameter table *)

Lemma KYBER_PARAMS_known v p :
  KYBER_PARAMS !! v = Some p →
  (v = "Kyber512" ∧ p = mkParams "Kyber512" 128 800 1632 768 32) ∨
  (v = "Kyber768" ∧ p = mkParams "Kyber768" 192 1184 2400 1088 32) ∨
  (v = "Kyber1024" ∧ p = mkParams "Kyber1024" 256 1568 3168 1568 32).
Proof.
  unfold KYBER_PARAMS. intros Hv.
  apply elem_of_list_to_map_2 in Hv.
  unfold KYBER_ITEMS in Hv.
  repeat (apply elem_of_cons in Hv as [Hv | Hv];
          [injection Hv as -> ->; tauto |]).
  by apply elem_of_nil in Hv.
Qed.

Lemma KYBER_PARAMS_unknown v :
  ¬ known_variant v → KYBER_PARAMS !! v = None.
Proof.
  intros Hv. unfold KYBER_PARAMS.
  apply not_elem_of_list_to_map_1. simpl.
  intros Hin. apply Hv. unfold known_variant.
  repeat (apply elem_of_cons in Hin as [-> | Hin]; [tauto |]).
  by apply elem_of_nil in Hin.
Qed.

Lemma KYBER_PARAMS_lookup_known v :
  known_variant v → ∃ p, KYBER_PARAMS !! v = Some p ∧ name p = v.
Proof.
  intros [-> | [-> | ->]]; eexists; (split; [vm_compute; reflexivity | reflexivity]).
Qed.

(** ** What a method call does, in terms of the binding *)

Section Runs.

Context {H : Type}.
Implicit Types (self : KyberKEM H) (w : World).

Lemma decapsulate_run ct sk self w :
  decapsulate ct sk (self, w) =
  match Oqs.decap_secret (Oqs.cls (kem self)) ct (Oqs.handle (kem self)) with
  | (Return ss, h) =>
      (Return ss, (with_handle self h, timed 0 "Decapsulation took" self w))
  | (Raise e, h) => (Raise e, (with_handle self h, aborted 0 w))
  end.
Proof.
  unfold decapsulate, mbind, M_bind, perf_counter, kem_call, logger_debug; simpl.
  destruct (Oqs.decap_secret _ _ _) as [[ss | e] h]; reflexivity.
Qed.

Lemma encapsulate_run pk self w :
  encapsulate pk (self, w) =
  match Oqs.encap_secret (Oqs.cls (kem self)) (entropy w (draws w)) pk
                         (Oqs.handle (kem self)) with
  | (Return r, h) =>
      (Return r, (with_handle self h, timed 1 "Encapsulation took" self w))
  | (Raise e, h) => (Raise e, (with_handle self h, aborted 1 w))
  end.
Proof.
  unfold encapsulate, mbind, M_bind, perf_counter, os_random, kem_call,
    logger_debug; simpl.
  destruct (Oqs.encap_secret _ _ _ _) as [[r | e] h]; reflexivity.
Qed.

Lemma generate_keypair_run self w :
  generate_keypair (self, w) =
  let c := Oqs.cls (kem self) in
  match Oqs.generate_keypair c (entropy w (draws w)) (Oqs.handle (kem self)) with
  | (Return pk, h) =>
      match Oqs.export_secret_key c h with
      | (Return sk, h') =>
          (Return (pk, sk),
           (with_handle self h', timed 1 "Keypair generation took" self w))
      | (Raise e, h') => (Raise e, (with_handle self h', aborted 1 w))
      end
  | (Raise e, h) => (Raise e, (with_handle self h, aborted 1 w))
  end.
Proof.
  unfold generate_keypair, mbind, M_bind, perf_counter, os_random, kem_call,
    logger_debug; simpl.
  destruct (Oqs.generate_keypair _ _ _) as [[pk | e] h]; [| reflexivity].
  simpl. destruct (Oqs.export_secret_key _ _) as [[sk | e] h']; reflexivity.
Qed.

(** No call assigns to [self.variant], [self.params] or [self.logger], or
    replaces the object [self.kem] by one of another class. *)
Lemma call_frame (c : Call) self w :
  let self' := (exec c (self, w)).1 in
  variant self' = variant self ∧ params self' = params self ∧
  logger self' = logger self ∧ Oqs.cls (kem self') = Oqs.cls (kem self).
Proof.
  destruct c as [| pk | ct sk |]; simpl.
  - rewrite generate_keypair_run; simpl.
    destruct (Oqs.generate_keypair _ _ _) as [[pk | e] h]; [| done].
    by destruct (Oqs.export_secret_key _ _) as [[sk | e] h'].
  - rewrite encapsulate_run.
    by destruct (Oqs.encap_secret _ _ _ _) as [[r | e] h].
  - rewrite decapsulate_run.
    by destruct (Oqs.decap_secret _ _ _) as [[r | e] h].
  - done.
Qed.

(** What the constructor establishes and every call keeps. *)
Lemma reachable_inv oqs v self :
  reachable oqs v self →
  variant self = v ∧ KYBER_PARAMS !! v = Some (params self) ∧
  logger self = module_name ∧ oqs = Some (Oqs.cls (kem self)).
Proof.
  induction 1 as [self Hinit | self c w _ IH].
  - unfold __init__ in Hinit.
    destruct (KYBER_PARAMS !! v) as [p |]; [| done].
    destruct oqs as [cl |]; [| done].
    destruct (Oqs.new cl v) as [h | e]; [| done].
    by injection Hinit as <-.
  - destruct (call_frame c self w) as (-> & -> & -> & ->). exact IH.
Qed.

End Runs.

(** ** The constructor *)

(** C4, as amended: a name outside the table is refused with a ValueError
    that lists the three names; a name of the table yields an instance with
    that name and its row of the table, provided that the binding was
    imported and that its constructor returns an object; without the binding
    the constructor raises a RuntimeError, and an exception of the binding's
    constructor is passed on. *)
Theorem init_outcomes {H} (oqs : option (Oqs.Class H)) (v : string) :
  (¬ known_variant v →
   __init__ oqs v =
   Raise (ValueError "Invalid variant. Choose from ['Kyber512', 'Kyber768', 'Kyber1024']")) ∧
  (known_variant v →
   ∃ p, KYBER_PARAMS !! v = Some p ∧ name p = v ∧
     __init__ oqs v =
     match oqs with
     | None => Raise (RuntimeError "liboqs-python not available. Cannot initialize Kyber.")
     | Some c =>
         match Oqs.new c v with
         | Return h => Return (mkKEM v p (Oqs.mkObject c h) module_name)
         | Raise e => Raise e
         end
     end).
Proof.
  split.
  - intros Hv. unfold __init__. by rewrite (KYBER_PARAMS_unknown v Hv).
  - intros Hv. destruct (KYBER_PARAMS_lookup_known v Hv) as (p & Hp & Hn).
    exists p. split; [done |]. split; [done |].
    unfold __init__. rewrite Hp.
    destruct oqs as [c |]; [| done]. by destruct (Oqs.new c v).
Qed.

Lemma init_outcomes_witness :
  @__init__ RefOqs.Handle (Some RefOqs.KeyEncapsulation) "Kyber2048" =
    Raise (ValueError "Invalid variant. Choose from ['Kyber512', 'Kyber768', 'Kyber1024']") ∧
  ∃ p, KYBER_PARAMS !! "Kyber768" = Some p ∧ name p = "Kyber768" ∧
    __init__ (Some RefOqs.KeyEncapsulation) "Kyber768" =
    Return (mkKEM "Kyber768" p
              (Oqs.mkObject RefOqs.KeyEncapsulation (RefOqs.mkHandle "Kyber768" None))
              module_name).
Proof.
  split.
  - apply (init_outcomes (Some RefOqs.KeyEncapsulation) "Kyber2048").
    unfold known_variant. intros [Hv | [Hv | Hv]]; discriminate Hv.
  - apply (init_outcomes (Some RefOqs.KeyEncapsulation) "Kyber768").
    unfold known_variant. right. left. reflexivity.
Defined.

(** C4, as stated, fails: with a name of the table and no binding imported,
    the constructor does not return an instance. *)
Lemma init_known_name_fails :
  known_variant "Kyber768" ∧
  @__init__ RefOqs.Handle None "Kyber768" =
    Raise (RuntimeError "liboqs-python not available. Cannot initialize Kyber.").
Proof. split; [right; left |]; reflexivity. Qed.

(** ** The parameter set of an instance *)

(** C9: no call of generate_keypair, encapsulate, decapsulate or
    get_algorithm_info changes the variant of the instance or its parameter
    record (name, security level and the four sizes), whether the call
    returns or raises. *)
Theorem parameter_set_immutable {H} (self : KyberKEM H) (w : World)
    (public_key ciphertext secret_key : bytes) :
  let after_keygen := (generate_keypair (self, w)).2.1 in
  let after_encap := (encapsulate public_key (self, w)).2.1 in
  let after_decap := (decapsulate ciphertext secret_key (self, w)).2.1 in
  let after_info := (get_algorithm_info (self, w)).2.1 in
  (variant after_keygen = variant self ∧ params after_keygen = params self) ∧
  (variant after_encap = variant self ∧ params after_encap = params self) ∧
  (variant after_decap = variant self ∧ params after_decap = params self) ∧
  (variant after_info = variant self ∧ params after_info = params self).
Proof.
  pose proof (call_frame CallGenerateKeypair self w) as (? & ? & _).
  pose proof (call_frame (CallEncapsulate public_key) self w) as (? & ? & _).
  pose proof (call_frame (CallDecapsulate ciphertext secret_key) self w) as (? & ? & _).
  pose proof (call_frame CallGetAlgorithmInfo self w) as (? & ? & _).
  simpl in *. tauto.
Qed.

(** ** The metadata *)

(** C7: for an instance built with the name v, at any later time,
    get_algorithm_info returns a dictionary whose variant is v and whose
    security level and four sizes are those of the row of v in the table,
    which is one of the three rows of section 6. *)
Theorem algorithm_info_matches {H} (oqs : option (Oqs.Class H)) (v : string)
    (self : KyberKEM H) (w : World) :
  reachable oqs v self →
  ∃ p info,
    KYBER_PARAMS !! v = Some p ∧
    (p = mkParams "Kyber512" 128 800 1632 768 32 ∨
     p = mkParams "Kyber768" 192 1184 2400 1088 32 ∨
     p = mkParams "Kyber1024" 256 1568 3168 1568 32) ∧
    name p = v ∧
    get_algorithm_info (self, w) = (Return info, (self, w)) ∧
    info !! "variant" = Some (PyStr v) ∧
    info !! "nist_level" = Some (PyInt (security_level p)) ∧
    info !! "public_key_size" = Some (PyInt (public_key_bytes p)) ∧
    info !! "secret_key_size" = Some (PyInt (secret_key_bytes p)) ∧
    info !! "ciphertext_size" = Some (PyInt (ciphertext_bytes p)) ∧
    info !! "shared_secret_size" = Some (PyInt (shared_secret_bytes p)).
Proof.
  intros Hr. destruct (reachable_inv oqs v self Hr) as (Hv & Hp & _).
  exists (params self), (algorithm_info self).
  split; [done |]. split.
  { destruct (KYBER_PARAMS_known v _ Hp) as [[_ ->] | [[_ ->] | [_ ->]]]; tauto. }
  split.
  { by destruct (KYBER_PARAMS_known v _ Hp) as [[-> ->] | [[-> ->] | [-> ->]]]. }
  split; [done |].
  rewrite <- Hv. unfold algorithm_info.
  repeat split; vm_compute; reflexivity.
Qed.

Lemma algorithm_info_matches_witness :
  ∃ self,
    __init__ (Some RefOqs.KeyEncapsulation) "Kyber1024" = Return self ∧
    (get_algorithm_info (self, RefOqs.world0)).1 =
    Return (algorithm_info self) ∧
    algorithm_info self !! "variant" = Some (PyStr "Kyber1024") ∧
    algorithm_info self !! "nist_level" = Some (PyInt 256) ∧
    algorithm_info self !! "public_key_size" = Some (PyInt 1568) ∧
    algorithm_info self !! "secret_key_size" = Some (PyInt 3168) ∧
    algorithm_info self !! "ciphertext_size" = Some (PyInt 1568) ∧
    algorithm_info self !! "shared_secret_size" = Some (PyInt 32).
Proof.
  pose (self := mkKEM "Kyber1024" (mkParams "Kyber1024" 256 1568 3168 1568 32)
                  (Oqs.mkObject RefOqs.KeyEncapsulation (RefOqs.mkHandle "Kyber1024" None))
                  module_name).
  exists self. split; [reflexivity |].
  destruct (algorithm_info_matches (Some RefOqs.KeyEncapsulation) "Kyber1024"
              self RefOqs.world0)
    as (p & info & Hp & _ & _ & Hrun & Hinfo).
  { apply reach_init. reflexivity. }
  injection Hrun as <-. split; [reflexivity |].
  assert (p = mkParams "Kyber1024" 256 1568 3168 1568 32) as ->
    by (vm_compute in Hp; congruence).
  exact Hinfo.
Defined.

(** ** The secret key passed to decapsulate *)

(** C10: decapsulate does the same, and returns the same, for any two
    secret_key arguments; what it returns is what the binding's
    decap_secret returns for the ciphertext in the current state of the
    object held by the instance. *)
Theorem decapsulate_ignores_secret_key {H} (self : KyberKEM H) (w : World)
    (ciphertext sk1 sk2 : bytes) :
  decapsulate ciphertext sk1 (self, w) = decapsulate ciphertext sk2 (self, w) ∧
  (decapsulate ciphertext sk1 (self, w)).1 =
  (Oqs.decap_secret (Oqs.cls (kem self)) ciphertext (Oqs.handle (kem self))).1.
Proof.
  split; [reflexivity |].
  rewrite decapsulate_run.
  by destruct (Oqs.decap_secret _ _ _) as [[ss | e] h].
Qed.

(** ** Lengths of the arguments *)

(** C2, as amended: encapsulate makes no length check of its own.  It
    passes the public key unchanged, whatever its length, to the binding's
    encap_secret and returns or raises exactly what that call returns or
    raises; the object is left as the call left it, and a call that raises
    logs nothing. *)
Theorem encapsulate_forwards {H} (self : KyberKEM H) (w : World) (public_key : bytes) :
  let call := Oqs.encap_secret (Oqs.cls (kem self)) (entropy w (draws w))
                public_key (Oqs.handle (kem self)) in
  let out := encapsulate public_key (self, w) in
  out.1 = call.1 ∧
  out.2.1 = with_handle self call.2 ∧
  log out.2.2 =
  match call.1 with
  | Return _ =>
      mkLog (logger self) "Encapsulation took"
            (clock w (S (ticks w)) - clock w (ticks w)) :: log w
  | Raise _ => log w
  end.
Proof.
  simpl. rewrite encapsulate_run.
  by destruct (Oqs.encap_secret _ _ _ _) as [[r | e] h].
Qed.

(** C2, as stated, fails: on the reference implementation, for Kyber768,
    whose public keys have 1184 bytes, encapsulate returns a ciphertext and
    a secret for a public key of 1183 bytes. *)
Lemma encapsulate_short_key_returns :
  public_key_bytes <$> KYBER_PARAMS !! "Kyber768" = Some 1184 ∧
  match session (Some RefOqs.KeyEncapsulation) "Kyber768" RefOqs.world0
          short_key_client with
  | Return (pk, (ct, ss)) => length pk = 1183%nat
  | Raise _ => False
  end.
Proof. split; vm_compute; reflexivity. Qed.

(** C3, as amended: decapsulate makes no length check of its own.  It
    passes the ciphertext unchanged, whatever its length, to the binding's
    decap_secret and returns or raises exactly what that call returns or
    raises; the object is left as the call left it, and a call that raises
    logs nothing. *)
Theorem decapsulate_forwards {H} (self : KyberKEM H) (w : World)
    (ciphertext secret_key : bytes) :
  let call := Oqs.decap_secret (Oqs.cls (kem self)) ciphertext (Oqs.handle (kem self)) in
  let out := decapsulate ciphertext secret_key (self, w) in
  out.1 = call.1 ∧
  out.2.1 = with_handle self call.2 ∧
  log out.2.2 =
  match call.1 with
  | Return _ =>
      mkLog (logger self) "Decapsulation took"
            (clock w (S (ticks w)) - clock w (ticks w)) :: log w
  | Raise _ => log w
  end.
Proof.
  simpl. rewrite decapsulate_run.
  by destruct (Oqs.decap_secret _ _ _) as [[r | e] h].
Qed.

(** C3, as stated, fails: on the reference implementation, for Kyber768,
    whose secret keys have 2400 bytes and whose ciphertexts have 1088,
    decapsulate returns the encapsulated secret for an empty secret key, and
    it returns a secret for a ciphertext of 1087 bytes. *)
Lemma decapsulate_short_inputs_return :
  secret_key_bytes <$> KYBER_PARAMS !! "Kyber768" = Some 2400 ∧
  ciphertext_bytes <$> KYBER_PARAMS !! "Kyber768" = Some 1088 ∧
  match session (Some RefOqs.KeyEncapsulation) "Kyber768" RefOqs.world0
          short_input_client with
  | Return (ss, ct, r1, r2) => r1 = ss ∧ length ct = 1087%nat
  | Raise _ => False
  end.
Proof.
  split; [vm_compute; reflexivity |].
  split; [vm_compute; reflexivity |].
  vm_compute. split; reflexivity.
Qed.

(** ** Decapsulation and the key pair in use *)

(** The assertion of the benchmark loop holds on the reference
    implementation: a round that generates a key pair and uses it at once
    recovers the encapsulated secret. *)
Lemma benchmark_round_passes :
  session (Some RefOqs.KeyEncapsulation) "Kyber768" RefOqs.world0 benchmark_round =
  Return tt.
Proof. vm_compute. reflexivity. Qed.

(** C1 at a failing input: on the reference implementation, for Kyber768,
    an instance generates the key pair (pk1, sk1) and then another key
    pair; a secret is encapsulated to pk1; decapsulate, called with the
    ciphertext and sk1, returns a different secret. *)
Theorem roundtrip_fails_for_earlier_keypair :
  match session (Some RefOqs.KeyEncapsulation) "Kyber768" RefOqs.world0
          stale_key_client with
  | Return (ss_enc, ss_dec) => ss_dec ≠ ss_enc
  | Raise _ => False
  end.
Proof. vm_compute. discriminate. Qed.

(** C6 at a failing input: on the reference implementation, for Kyber768,
    a ciphertext is tampered with by flipping one bit and decapsulated with
    the secret key sk, twice: both calls return the same secret, which is
    not the encapsulated one.  The instance then generates another key
    pair; the same tampered ciphertext, decapsulated again with the same
    sk, gives a different secret. *)
Theorem tampered_result_not_reproducible :
  match session (Some RefOqs.KeyEncapsulation) "Kyber768" RefOqs.world0
          (tamper_client 0) with
  | Return (ct, tampered, ss, (r0, r1, r2)) =>
      tampered ≠ ct ∧ length tampered = length ct ∧
      r0 = r1 ∧ r1 ≠ ss ∧ r2 ≠ r1
  | Raise _ => False
  end.
Proof.
  vm_compute.
  split; [discriminate |]. split; [reflexivity |].
  split; [reflexivity |]. split; discriminate.
Qed.

(** ** The sizes of what is returned *)

Lemma spec_sizes_known v : is_Some (spec_sizes v) → known_variant v.
Proof.
  unfold spec_sizes, known_variant.
  destruct (String.eqb_spec v "Kyber512"); [tauto |].
  destruct (String.eqb_spec v "Kyber768"); [tauto |].
  destruct (String.eqb_spec v "Kyber1024"); [tauto |].
  by intros [? ?].
Qed.

(** The table of the module agrees with the sizes of section 6. *)
Lemma KYBER_PARAMS_sizes v p :
  KYBER_PARAMS !! v = Some p →
  public_key_bytes p = Z.of_nat (pk_size v) ∧
  secret_key_bytes p = Z.of_nat (sk_size v) ∧
  ciphertext_bytes p = Z.of_nat (ct_size v) ∧
  shared_secret_bytes p = Z.of_nat (ss_size v).
Proof.
  intros Hp.
  destruct (KYBER_PARAMS_known v p Hp) as [[-> ->] | [[-> ->] | [-> ->]]];
    vm_compute; tauto.
Qed.

(** The digests of the reference implementation have 32 bytes. *)
Lemma length_absorb acc i data :
  length (RefOqs.absorb acc i data) = length acc.
Proof.
  revert acc i. induction data as [| b data IH]; intros acc i; simpl; [done |].
  by rewrite IH, length_alter, length_insert.
Qed.

Lemma length_digest tag data : length (RefOqs.digest tag data) = 32%nat.
Proof. unfold RefOqs.digest. by rewrite length_absorb, length_replicate. Qed.



(** The sizes on the reference implementation, computed: a key pair and an
    encapsulation for Kyber1024. *)
Example sizes_computed :
  match session (Some RefOqs.KeyEncapsulation) "Kyber1024" RefOqs.world0
          (kp ← generate_keypair; r ← encapsulate kp.1; mret (kp, r)) with
  | Return ((pk, sk), (ct, ss)) =>
      (length pk, length sk, length ct, length ss) = (1568, 3168, 1568, 32)%nat
  | Raise _ => False
  end.
Proof. vm_compute. reflexivity. Qed.

(** ** The inverse law of the transform *)

Module NTTProperties.

Import NTT.

(** The model is the standard transform: the table begins as the
    standard's does, and X^2 is sent to the values zeta^(2 brv(i) + 1) in
    the constant coefficients of the blocks. *)
Example zetas_head : take 8 zetas = [1; 1729; 2580; 3289; 2642; 630; 1897; 848].
Proof. reflexivity. Qed.

Example forward_of_square :
  take 6 (ForwardNTT (0 :: 0 :: 1 :: replicate 253 0)) = [17; 0; 3312; 0; 2761; 0].
Proof. vm_compute. reflexivity. Qed.

#[local] Instance inverse_pair_dec z z' : Decision (inverse_pair z z').
Proof. unfold inverse_pair. apply _. Defined.

Lemma cong_lo z c a b x y :
  cong c x ((a + z * b) mod q) → cong c y ((a - z * b) mod q) →
  cong (2 * c) ((x + y) mod q) a.
Proof.
  unfold cong. intros Hx Hy.
  rewrite Z.mod_mod by done.
  rewrite Z.add_mod, Hx, Hy by done.
  rewrite <- Z.add_mod by done.
  rewrite <- Z.mul_add_distr_l.
  rewrite Z.mul_mod, <- Z.add_mod by done.
  rewrite <- Z.mul_mod by done.
  f_equal. ring.
Qed.

Lemma cong_hi z z' c a b x y :
  inverse_pair z z' →
  cong c x ((a + z * b) mod q) → cong c y ((a - z * b) mod q) →
  cong (2 * c) ((z' * (y - x)) mod q) b.
Proof.
  unfold cong, inverse_pair. intros Hz Hx Hy.
  rewrite Z.mod_mod by done.
  rewrite Z.mul_mod, Zminus_mod, Hx, Hy by done.
  rewrite <- Zminus_mod, <- Z.mul_sub_distr_l.
  rewrite (Z.mul_mod c), <- Zminus_mod by done.
  rewrite <- (Z.mul_mod c) by done.
  rewrite <- Z.mul_mod by done.
  replace (z' * (c * (a - z * b - (a + z * b)))) with ((z * z') * (-2 * c * b)) by ring.
  rewrite Z.mul_mod, Hz by done.
  rewrite <- Z.mul_mod by done.
  f_equal. ring.
Qed.

Lemma butterfly_inverse z z' c lo hi glo ghi :
  inverse_pair z z' →
  Forall2 (cong c) glo (zip_with (λ a b, (a + z * b) mod q) lo hi) →
  Forall2 (cong c) ghi (zip_with (λ a b, (a - z * b) mod q) lo hi) →
  length lo = length hi →
  Forall2 (cong (2 * c)) (inv_butterfly z' glo ghi) (lo ++ hi).
Proof.
  intros Hz Hlo Hhi Hlen. unfold inv_butterfly.
  revert hi glo ghi Hlo Hhi Hlen.
  induction lo as [| a lo IH]; intros [| b hi] glo ghi Hlo Hhi Hlen;
    simpl in *; try discriminate.
  { apply Forall2_nil_inv_r in Hlo as ->. constructor. }
  apply Forall2_cons_inv_r in Hlo as (x & glo' & Hx & Hlo & ->).
  apply Forall2_cons_inv_r in Hhi as (y & ghi' & Hy & Hhi & ->).
  injection Hlen as Hlen.
  specialize (IH hi glo' ghi' Hlo Hhi Hlen).
  apply Forall2_app_inv in IH as [IHlo IHhi].
  2:{ rewrite length_zip_with.
      apply Forall2_length in Hlo, Hhi. rewrite length_zip_with in Hlo, Hhi. lia. }
  constructor; [by eapply cong_lo |].
  apply Forall2_app; [done |].
  constructor; [by eapply cong_hi | done].
Qed.

Lemma blocks_inverse len zs zs' :
  Forall2 inverse_pair zs zs' →
  ∀ c f g,
    length f = (length zs * (len + len))%nat →
    Forall2 (cong c) g (blocks butterfly len zs f) →
    Forall2 (cong (2 * c)) (blocks inv_butterfly len zs' g) f.
Proof.
  induction 1 as [| z z' zs zs' Hz _ IH]; intros c f g Hlen Hg; simpl in *.
  { apply length_zero_iff_nil in Hlen as ->.
    apply Forall2_nil_inv_r in Hg as ->. constructor. }
  assert (∃ lo hi rest, f = lo ++ hi ++ rest ∧ length lo = len ∧ length hi = len)
    as (lo & hi & rest & -> & Hlo & Hhi).
  { exists (take len f), (take len (drop len f)), (drop len (drop len f)).
    rewrite !take_drop, length_take, length_take, length_drop.
    split; [done |].
    set (m := (length zs * (len + len))%nat) in *. clearbody m. lia. }
  assert (drop (len + len) (lo ++ hi ++ rest) = rest) as Hrest.
  { rewrite <- drop_drop. rewrite drop_app_length' by done.
    by rewrite drop_app_length' by done. }
  rewrite Hrest in Hg.
  rewrite take_app_length', drop_app_length', take_app_length' in Hg by done.
  unfold butterfly in Hg. rewrite <- app_assoc in Hg.
  apply Forall2_app_inv_r in Hg as (ga & g' & Hga & Hg & ->).
  apply Forall2_app_inv_r in Hg as (gb & gr & Hgb & Hgr & ->).
  assert (length ga = len) as Hla
    by (apply Forall2_length in Hga; rewrite length_zip_with in Hga; lia).
  assert (length gb = len) as Hlb
    by (apply Forall2_length in Hgb; rewrite length_zip_with in Hgb; lia).
  assert (drop (len + len) (ga ++ gb ++ gr) = gr) as Hgr'.
  { rewrite <- drop_drop. rewrite drop_app_length' by done.
    by rewrite drop_app_length' by done. }
  rewrite Hgr'.
  rewrite take_app_length', drop_app_length', take_app_length' by done.
  rewrite (app_assoc lo hi rest).
  apply Forall2_app.
  - apply butterfly_inverse with z; [done | done | done | lia].
  - apply IH; [| done].
    rewrite !length_app in Hlen.
    set (m := (length zs * (len + len))%nat) in *. clearbody m. lia.
Qed.

Lemma length_blocks_butterfly len zs f :
  length f = (length zs * (len + len))%nat →
  length (blocks butterfly len zs f) = length f.
Proof.
  revert f. induction zs as [| z zs IH]; intros f Hlen; simpl in *; [done |].
  unfold butterfly. rewrite !length_app, !length_zip_with, !length_take, length_drop.
  rewrite IH by (rewrite length_drop; lia).
  rewrite length_drop. lia.
Qed.

Lemma layers_ok : Forall layer_ok (seq 0 7).
Proof.
  repeat constructor;
    try (vm_compute; reflexivity);
    apply (bool_decide_unpack _); vm_compute; exact I.
Qed.

Lemma length_fwd ls f :
  Forall layer_ok ls → length f = N →
  length (foldl fwd_layer f ls) = N.
Proof.
  intros Hok. revert f. induction Hok as [| l ls Hl _ IH]; intros f Hf; simpl; [done |].
  destruct Hl as [Hl _].
  apply IH. unfold fwd_layer. rewrite length_blocks_butterfly; [done |].
  by rewrite Hf, Hl.
Qed.

Lemma layers_inverse ls :
  Forall layer_ok ls →
  ∀ c f g,
    length f = N →
    Forall2 (cong c) g (foldl fwd_layer f ls) →
    Forall2 (cong (2 ^ Z.of_nat (length ls) * c)) (foldl inv_layer g (reverse ls)) f.
Proof.
  induction ls as [| l ls IH] using rev_ind; intros Hok c f g Hf Hg.
  { simpl in *. by rewrite Z.mul_1_l. }
  apply Forall_app in Hok as [Hok Hl]. rewrite Forall_singleton in Hl.
  destruct Hl as [Hlen Hinv].
  rewrite foldl_app in Hg. simpl in Hg.
  rewrite reverse_app. simpl.
  rewrite length_app, Nat2Z.inj_add. simpl length.
  rewrite Z.pow_add_r by lia.
  replace (2 ^ Z.of_nat (length ls) * 2 ^ Z.of_nat 1 * c)
    with (2 ^ Z.of_nat (length ls) * (2 * c)) by (change (2 ^ Z.of_nat 1) with 2; ring).
  apply IH; [done | done |].
  unfold inv_layer. apply blocks_inverse with (layer_zetas l); [done | | done].
  rewrite length_fwd by done. by rewrite Hlen.
Qed.

Lemma scale_back g f :
  Forall2 (cong 128) g f → Forall (λ x, 0 ≤ x < q) f →
  (λ x, (x * 3303) mod q) <$> g = f.
Proof.
  induction 1 as [| x y g f Hxy _ IH]; intros Hf; [done |].
  apply Forall_cons in Hf as [Hy Hf]. simpl. f_equal; [| by apply IH].
  unfold cong in Hxy.
  rewrite Z.mul_mod, Hxy by done.
  rewrite <- Z.mul_mod by done.
  replace (128 * y * 3303) with (y + q * (127 * y)) by (unfold q; ring).
  rewrite Z.add_mod, Z.mul_comm, Z.mod_mul, Z.add_0_r, Z.mod_mod by done.
  by apply Z.mod_small.
Qed.

(** C8: the inverse transform applied to the forward transform of a
    representable polynomial (256 coefficients in [0, q), q = 3329) gives
    the polynomial back. *)
Theorem inverse_forward (f : list Z) : poly f → InverseNTT (ForwardNTT f) = f.
Proof.
  intros [Hlen Hrange]. unfold InverseNTT.
  apply scale_back; [| done].
  change 128 with (2 ^ Z.of_nat (length (seq 0 7)) * 1).
  apply layers_inverse; [apply layers_ok | done |].
  unfold ForwardNTT. apply Forall_Forall2_diag, Forall_forall.
  intros x _. unfold cong. by rewrite Z.mul_1_l.
Qed.

Lemma inverse_forward_witness : poly ramp ∧ InverseNTT (ForwardNTT ramp) = ramp.
Proof.
  assert (poly ramp) as Hp.
  { split; [reflexivity |]. apply (bool_decide_unpack _). vm_compute. exact I. }
  split; [exact Hp |]. apply (inverse_forward ramp). exact Hp.
Defined.

End NTTProperties.

(** * Further properties of the module *)

(** ** Key generation *)

(** X1: generate_keypair returns the public key that the binding's
    generate_keypair returns together with the secret key that
    export_secret_key returns in the state which key generation left, so
    the two belong together; an exception of either call is passed on,
    and when export_secret_key raises the object keeps the new key.  A
    call that returns logs one record, a call that raises logs none. *)
Theorem generate_keypair_forwards {H} (self : KyberKEM H) (w : World) :
  let c := Oqs.cls (kem self) in
  let gen := Oqs.generate_keypair c (entropy w (draws w)) (Oqs.handle (kem self)) in
  let exp := Oqs.export_secret_key c gen.2 in
  let out := generate_keypair (self, w) in
  out.1 =
    match gen.1, exp.1 with
    | Return pk, Return sk => Return (pk, sk)
    | Return _, Raise e => Raise e
    | Raise e, _ => Raise e
    end ∧
  out.2.1 = with_handle self (if is_return gen.1 then exp.2 else gen.2) ∧
  log out.2.2 =
    if is_return out.1
    then mkLog (logger self) "Keypair generation took"
               (clock w (S (ticks w)) - clock w (ticks w)) :: log w
    else log w.
Proof.
  simpl. rewrite generate_keypair_run. simpl.
  destruct (Oqs.generate_keypair _ _ _) as [[pk | e] h]; simpl; [| done].
  by destruct (Oqs.export_secret_key _ _) as [[sk | e] h'].
Qed.

(** ** The log *)

Lemma exec_log {H} (c : Call) (s : St H) :
  log_text <$> log (exec c s).2 =
  (if returns c s then from_option (λ t, [t]) [] (log_text_of c) else []) ++
  (log_text <$> log s.2).
Proof.
  destruct s as [self w]. destruct c as [| pk | ct sk |]; simpl.
  - rewrite generate_keypair_run; simpl.
    destruct (Oqs.generate_keypair _ _ _) as [[pk | e] h]; [| done].
    by destruct (Oqs.export_secret_key _ _) as [[sk | e] h'].
  - rewrite encapsulate_run.
    by destruct (Oqs.encap_secret _ _ _ _) as [[r | e] h].
  - rewrite decapsulate_run.
    by destruct (Oqs.decap_secret _ _ _) as [[r | e] h].
  - done.
Qed.

(** X2: whatever calls a client makes, in whatever order, and whichever
    of them raise, the log holds afterwards, latest first and on top of
    what it held before, exactly one record for each call of
    generate_keypair, encapsulate and decapsulate that returned, with the
    text of that operation; get_algorithm_info and calls that raise log
    nothing. *)
Theorem log_lists_returned_calls {H} (cs : list Call) (s : St H) :
  log_text <$> log (run_calls cs s []).1.2 =
  (run_calls cs s []).2 ++ (log_text <$> log s.2).
Proof.
  assert (∀ texts, ∃ new,
    (run_calls cs s texts).2 = new ++ texts ∧
    log_text <$> log (run_calls cs s texts).1.2 = new ++ (log_text <$> log s.2))
    as Hgen.
  { revert s. induction cs as [| c cs IH]; intros s texts; simpl.
    { by exists []. }
    edestruct IH as (new & -> & ->). rewrite exec_log.
    destruct (returns c s); [| by exists new].
    destruct (log_text_of c) as [t |]; simpl; [| by exists new].
    exists (new ++ [t]). by rewrite <- !app_assoc. }
  destruct (Hgen []) as (new & -> & ->). by rewrite app_nil_r.
Qed.

(** ** The metadata, once more *)

(** X3: the dictionary of get_algorithm_info has exactly nine keys.  Its
    'claimed_nist_level' is the entry of that name in the binding's
    details, and None when the details have no such entry; its 'version'
    is the binding's, and 'unknown' when the details have none.  The call
    always returns and changes neither the instance nor the world. *)
Theorem algorithm_info_defaults {H} (self : KyberKEM H) (w : World) :
  let d := Oqs.details (Oqs.cls (kem self)) (Oqs.handle (kem self)) in
  let info := algorithm_info self in
  get_algorithm_info (self, w) = (Return info, (self, w)) ∧
  dom info =
    list_to_set
      [ "algorithm"; "variant"; "nist_level"; "public_key_size"; "secret_key_size";
        "ciphertext_size"; "shared_secret_size"; "claimed_nist_level"; "version" ] ∧
  info !! "algorithm" = Some (PyStr "ML-KEM (CRYSTALS-Kyber)") ∧
  info !! "claimed_nist_level" = Some (default PyNone (d !! "claimed_nist_level")) ∧
  info !! "version" = Some (default (PyStr "unknown") (d !! "version")).
Proof.
  simpl. split; [done |]. unfold algorithm_info, dict_get.
  generalize (Oqs.details (Oqs.cls (kem self)) (Oqs.handle (kem self))).
  intros d.
  destruct (d !! "claimed_nist_level"), (d !! "version"); simpl;
    repeat split; vm_compute; reflexivity.
Qed.

(** ** The benchmark *)

Section BenchmarkFacts.

Context {H : Type}.
Implicit Types (s : St H).

Lemma bind_returns {A B} (m : M (H:=H) A) (f : A → M B) s b s' :
  (m ≫= f) s = (Return b, s') →
  ∃ a s1, m s = (Return a, s1) ∧ f a s1 = (Return b, s').
Proof.
  unfold mbind, M_bind. destruct (m s) as [[a | e] s1]; [eauto | done].
Qed.

Lemma logged_refl s : logged 0 s s.
Proof. by repeat split. Qed.

Lemma logged_trans j k s1 s2 s3 :
  logged j s1 s2 → logged k s2 s3 → logged (k + j) s1 s3.
Proof.
  intros (? & ? & ? & ? & ?) (? & ? & ? & ? & ?).
  repeat split; try congruence. lia.
Qed.

Lemma perf_counter_logged s t s' : perf_counter s = (Return t, s') → logged 0 s s'.
Proof. destruct s as [self w]. intros [= _ <-]. by repeat split. Qed.

Lemma generate_keypair_logged s r s' :
  generate_keypair s = (Return r, s') → logged 1 s s'.
Proof.
  destruct s as [self w]. rewrite generate_keypair_run; simpl.
  destruct (Oqs.generate_keypair _ _ _) as [[pk | e] h]; [| done].
  destruct (Oqs.export_secret_key _ _) as [[sk | e] h']; [| done].
  intros [= _ <-]. by repeat split.
Qed.

Lemma encapsulate_logged pk s r s' :
  encapsulate pk s = (Return r, s') → logged 1 s s'.
Proof.
  destruct s as [self w]. rewrite encapsulate_run.
  destruct (Oqs.encap_secret _ _ _ _) as [[r' | e] h]; [| done].
  intros [= _ <-]. by repeat split.
Qed.

Lemma decapsulate_logged ct sk s r s' :
  decapsulate ct sk s = (Return r, s') → logged 1 s s'.
Proof.
  destruct s as [self w]. rewrite decapsulate_run.
  destruct (Oqs.decap_secret _ _ _) as [[r' | e] h]; [| done].
  intros [= _ <-]. by repeat split.
Qed.

(** A loop that returns has run all its rounds: each round appends one time
    to each list and logs three records. *)
Lemma benchmark_loop_returns debug n kt et dt s kt' et' dt' s' :
  benchmark_loop debug n kt et dt s = (Return (kt', et', dt'), s') →
  logged (3 * n) s s' ∧
  length kt' = (length kt + n)%nat ∧
  length et' = (length et + n)%nat ∧
  length dt' = (length dt + n)%nat.
Proof.
  revert kt et dt s. induction n as [| n IH]; intros kt et dt s Hrun.
  { injection Hrun as <- <- <- <-. rewrite !Nat.add_0_r. split; [apply logged_refl | done]. }
  cbn [benchmark_loop] in Hrun.
  apply bind_returns in Hrun as (t1 & s1 & H1 & Hrun).
  apply bind_returns in Hrun as ([pk sk] & s2 & H2 & Hrun).
  apply bind_returns in Hrun as (t3 & s3 & H3 & Hrun).
  apply bind_returns in Hrun as (t4 & s4 & H4 & Hrun).
  apply bind_returns in Hrun as ([ct ss_enc] & s5 & H5 & Hrun).
  apply bind_returns in Hrun as (t6 & s6 & H6 & Hrun).
  apply bind_returns in Hrun as (t7 & s7 & H7 & Hrun).
  apply bind_returns in Hrun as (ss_dec & s8 & H8 & Hrun).
  apply bind_returns in Hrun as (t9 & s9 & H9 & Hrun).
  destruct (debug && negb (bool_decide (ss_enc = ss_dec))); [done |].
  apply IH in Hrun as (Hlog & -> & -> & ->).
  rewrite !length_app. cbn [length]. split; [| repeat split; lia].
  apply perf_counter_logged in H1, H3, H4, H6, H7, H9.
  apply generate_keypair_logged in H2. apply encapsulate_logged in H5.
  apply decapsulate_logged in H8.
  pose proof (logged_trans _ _ _ _ _ H1 H2) as L.
  pose proof (logged_trans _ _ _ _ _ L H3) as L3.
  pose proof (logged_trans _ _ _ _ _ L3 H4) as L4.
  pose proof (logged_trans _ _ _ _ _ L4 H5) as L5.
  pose proof (logged_trans _ _ _ _ _ L5 H6) as L6.
  pose proof (logged_trans _ _ _ _ _ L6 H7) as L7.
  pose proof (logged_trans _ _ _ _ _ L7 H8) as L8.
  pose proof (logged_trans _ _ _ _ _ L8 H9) as L9.
  pose proof (logged_trans _ _ _ _ _ L9 Hlog) as L10.
  replace (3 * S n)%nat with (3 * n + (0 + (1 + (0 + (0 + (1 + (0 + (0 + (1 + 0)))))))))%nat by lia.
  exact L10.
Qed.

End BenchmarkFacts.

(** X5: benchmark returns no statistics for a number of iterations that is
    not positive, and makes no call at all: with 0 iterations it raises
    ZeroDivisionError, with a negative number ValueError (the minimum of an
    empty list), and the instance and the world are as before. *)
Theorem benchmark_no_iterations {H} (debug : bool) (iterations : Z)
    (self : KyberKEM H) (w : World) :
  iterations ≤ 0 →
  ∃ e, benchmark debug iterations (self, w) = (Raise e, (self, w)) ∧
       exc_class e = if decide (iterations = 0) then "ZeroDivisionError" else "ValueError".
Proof.
  intros Hn. unfold benchmark.
  replace (Z.to_nat iterations) with 0%nat by lia.
  unfold mbind, M_bind; simpl. unfold summary, py_truediv; simpl.
  destruct (decide (iterations = 0)) as [-> | Hne]; simpl; eauto.
Qed.

Lemma benchmark_no_iterations_witness :
  ∃ e, (benchmark true (-5)
          (mkKEM "Kyber512" (mkParams "Kyber512" 128 800 1632 768 32)
             (Oqs.mkObject RefOqs.KeyEncapsulation (RefOqs.mkHandle "Kyber512" None))
             module_name, RefOqs.world0)).1 = Raise e ∧
       exc_class e = "ValueError".
Proof.
  destruct (benchmark_no_iterations true (-5)
              (mkKEM "Kyber512" (mkParams "Kyber512" 128 800 1632 768 32)
                 (Oqs.mkObject RefOqs.KeyEncapsulation (RefOqs.mkHandle "Kyber512" None))
                 module_name) RefOqs.world0) as (e & Hrun & He).
  { lia. }
  exists e. rewrite Hrun. split; [reflexivity | exact He].
Defined.

Lemma benchmark_shape {H} (debug : bool) (iterations : Z)
    (self self' : KyberKEM H) (w w' : World) (d : gmap string StatVal) :
  benchmark debug iterations (self, w) = (Return d, (self', w')) →
  0 < iterations ∧
  dom d =
    list_to_set
      [ "variant"; "iterations";
        "keygen_avg_ms"; "keygen_min_ms"; "keygen_max_ms";
        "encap_avg_ms"; "encap_min_ms"; "encap_max_ms";
        "decap_avg_ms"; "decap_min_ms"; "decap_max_ms" ] ∧
  d !! "variant" = Some (StatStr (variant self)) ∧
  d !! "iterations" = Some (StatInt iterations) ∧
  variant self' = variant self ∧ params self' = params self ∧
  length (log w') = (3 * Z.to_nat iterations + length (log w))%nat.
Proof.
  unfold benchmark. intros Hrun.
  apply bind_returns in Hrun as ([[kt et] dt] & [self1 w1] & Hloop & Hsum).
  apply benchmark_loop_returns in Hloop as ((Hv & Hp & _ & _ & Hlog) & Hkt & Het & Hdt).
  simpl in *. injection Hsum as Hsum <- <-.
  unfold summary in Hsum.
  unfold py_truediv in Hsum.
  destruct (decide (iterations = 0)) as [-> | Hne]; [done |].
  cbn [mbind result_bind] in Hsum.
  destruct kt as [| k0 kt]; [done |].
  destruct et as [| e0 et]; [simpl in Hkt, Het; lia |].
  destruct dt as [| d0 dt]; [simpl in Hkt, Hdt; lia |].
  cbn [py_min py_max mbind result_bind mret result_ret] in Hsum.
  injection Hsum as <-.
  split; [simpl in Hkt; lia |].
  rewrite Hv, Hp, Hlog.
  repeat split; vm_compute; reflexivity.
Qed.

(** X6: when benchmark returns, the number of iterations was positive, the
    dictionary has exactly the eleven keys of the source, its 'variant' is
    the variant of the instance and its 'iterations' the argument; the
    variant and the parameters of the instance are unchanged, and three
    records were logged for every iteration. *)
Theorem benchmark_returns_shape {H} (debug : bool) (iterations : Z)
    (self self' : KyberKEM H) (w w' : World) (d : gmap string StatVal) :
  benchmark debug iterations (self, w) = (Return d, (self', w')) →
  0 < iterations ∧
  dom d =
    list_to_set
      [ "variant"; "iterations";
        "keygen_avg_ms"; "keygen_min_ms"; "keygen_max_ms";
        "encap_avg_ms"; "encap_min_ms"; "encap_max_ms";
        "decap_avg_ms"; "decap_min_ms"; "decap_max_ms" ] ∧
  d !! "variant" = Some (StatStr (variant self)) ∧
  d !! "iterations" = Some (StatInt iterations) ∧
  variant self' = variant self ∧ params self' = params self ∧
  length (log w') = (3 * Z.to_nat iterations + length (log w))%nat.
Proof. apply benchmark_shape. Qed.

(** ** The reference implementation recovers what it encapsulates *)

Lemma to_N_xor_byte a b :
  Byte.to_N (xor_byte a b) = N.lxor (Byte.to_N a) (Byte.to_N b).
Proof.
  unfold xor_byte.
  pose proof (to_N_bounded a) as Ha. pose proof (to_N_bounded b) as Hb.
  set (x := Byte.to_N a) in *. set (y := Byte.to_N b) in *.
  assert (N.lxor x y ≤ 255)%N as Hxy.
  { destruct (N.eq_dec (N.lxor x y) 0%N) as [-> | Hne]; [lia |].
    apply N.lt_succ_r. change (N.succ 255%N) with (2 ^ 8)%N.
    apply N.log2_lt_pow2; [lia |].
    pose proof (N.log2_lxor x y) as Hl.
    pose proof (N.log2_le_mono x 255 Ha) as Hx.
    pose proof (N.log2_le_mono y 255 Hb) as Hy.
    change (N.log2 255%N) with 7%N in *. lia. }
  pose proof (to_of_N_option_map (N.lxor x y)) as Hmap.
  apply N.leb_le in Hxy. rewrite Hxy in Hmap.
  destruct (Byte.of_N (N.lxor x y)) as [z |]; simpl in *; [| done].
  by injection Hmap.
Qed.

Lemma to_N_inj a b : Byte.to_N a = Byte.to_N b → a = b.
Proof.
  intros Hab. pose proof (of_to_N a) as Ha. rewrite Hab, of_to_N in Ha.
  by injection Ha.
Qed.

Lemma xor_byte_cancel a p c :
  xor_byte (xor_byte (xor_byte (xor_byte a p) c) p) c = a.
Proof.
  apply to_N_inj. rewrite !to_N_xor_byte.
  apply N.bits_inj. intros n. rewrite !N.lxor_spec.
  by destruct (N.testbit (Byte.to_N a) n), (N.testbit (Byte.to_N p) n),
    (N.testbit (Byte.to_N c) n).
Qed.

Lemma xor_bytes_cancel m p c :
  length p = length m → length c = length m →
  RefOqs.xor_bytes (RefOqs.xor_bytes (RefOqs.xor_bytes (RefOqs.xor_bytes m p) c) p) c = m.
Proof.
  unfold RefOqs.xor_bytes. revert p c.
  induction m as [| a m IH]; intros [| b p] [| d c] Hp Hc; simpl in *; try done.
  rewrite xor_byte_cancel. f_equal. apply IH; lia.
Qed.

(** The sizes of section 6 leave room for the layout of the reference
    implementation. *)
Lemma spec_sizes_room v :
  is_Some (spec_sizes v) →
  (32 ≤ pk_size v ∧ 32 ≤ sk_size v - pk_size v - 64 ∧ 64 ≤ ct_size v ∧
   sk_size v - pk_size v - 64 + pk_size v + 64 = sk_size v)%nat.
Proof.
  intros Hv. destruct (spec_sizes_known v Hv) as [-> | [-> | ->]];
    vm_compute; repeat split; apply Nat.leb_le; reflexivity.
Qed.

Lemma ref_decaps_encaps v s z m :
  is_Some (spec_sizes v) → length s = 32%nat → length m = 32%nat →
  let pk := resize (pk_size v) x00 (RefOqs.public_of s) in
  let sk := resize (sk_size v - pk_size v - 64) x00 s ++ pk ++ RefOqs.Hash pk ++ z in
  RefOqs.decaps v sk (RefOqs.encaps v pk m).1 = (RefOqs.encaps v pk m).2.
Proof.
  intros Hv Hs Hm pk sk.
  destruct (spec_sizes_room v Hv) as (Hpk & Hn & Hct & _).
  set (n := (sk_size v - pk_size v - 64)%nat) in *.
  assert (length (RefOqs.public_of s) = 32%nat) as HP by apply length_digest.
  assert (length pk = pk_size v) as Hlpk by (subst pk; apply length_resize).
  assert (take 32 pk = RefOqs.public_of s) as Hpk32.
  { subst pk. rewrite resize_ge by lia. by rewrite take_app_length' by done. }
  unfold RefOqs.encaps, RefOqs.decaps. cbn [fst snd]. fold n.
  set (hpk := RefOqs.Hash pk).
  assert (length hpk = 32%nat) as Hh by apply length_digest.
  set (coins := RefOqs.Coins (m ++ hpk)).
  assert (length coins = 32%nat) as Hc by apply length_digest.
  assert (take 32 sk = s) as ->.
  { subst sk. rewrite resize_ge by lia. rewrite <- app_assoc.
    by rewrite take_app_length' by done. }
  assert (drop n sk = pk ++ hpk ++ z) as Hdrop.
  { subst sk. by rewrite drop_app_length' by (by rewrite length_resize). }
  assert (take (pk_size v) (drop n sk) = pk) as ->.
  { rewrite Hdrop. by rewrite take_app_length' by done. }
  assert (take 32 (drop (n + pk_size v) sk) = hpk) as ->.
  { rewrite <- drop_drop, Hdrop. rewrite drop_app_length' by done.
    by rewrite take_app_length' by done. }
  set (ct := RefOqs.pke_encrypt v pk m coins).
  assert (RefOqs.pke_decrypt s ct = m) as ->.
  { subst ct. unfold RefOqs.pke_encrypt, RefOqs.pke_decrypt. rewrite Hpk32.
    set (x := RefOqs.xor_bytes (RefOqs.xor_bytes m (RefOqs.public_of s)) coins).
    assert (length x = 32%nat) as Hx.
    { subst x. unfold RefOqs.xor_bytes. rewrite !length_zip_with. lia. }
    rewrite resize_ge by (rewrite length_app; lia).
    rewrite <- app_assoc.
    rewrite (take_app_length' coins) by done.
    rewrite (drop_app_length' coins) by done.
    rewrite (take_app_length' x) by done.
    subst x. apply xor_bytes_cancel; lia. }
  fold coins. fold ct. by rewrite decide_True.
Qed.

Lemma ref_buffer_exact n b : length b = n → RefOqs.buffer n b = Return b.
Proof.
  intros Hb. unfold RefOqs.buffer.
  rewrite decide_True by lia. by rewrite resize_all_alt.
Qed.

Lemma ref_holds_pk pk h :
  ref_holds pk h → length pk = pk_size (RefOqs.alg_name h).
Proof. intros (_ & s & z & _ & -> & _). apply length_resize. Qed.

Lemma ref_encap_returns d pk h :
  ref_holds pk h →
  RefOqs.encap_secret d pk h =
  (Return (RefOqs.encaps (RefOqs.alg_name h) pk (resize 32 x00 d)), h).
Proof.
  intros Hh. unfold RefOqs.encap_secret.
  by rewrite (ref_buffer_exact _ pk (ref_holds_pk pk h Hh)).
Qed.

Lemma ref_decap_returns d pk h :
  ref_holds pk h →
  let r := RefOqs.encaps (RefOqs.alg_name h) pk (resize 32 x00 d) in
  RefOqs.decap_secret r.1 h = (Return r.2, h).
Proof.
  intros (Hv & s & z & Hs & Hpk & Hsk) r. unfold RefOqs.decap_secret.
  rewrite Hsk. rewrite ref_buffer_exact.
  2:{ subst r. unfold RefOqs.encaps, RefOqs.pke_encrypt. apply length_resize. }
  subst r. rewrite Hpk.
  by rewrite (ref_decaps_encaps _ s z (resize 32 x00 d) Hv Hs (length_resize _ _ _)).
Qed.

Lemma RefOqs_round_trips : round_trips RefOqs.KeyEncapsulation ref_usable ref_holds.
Proof.
  split; simpl.
  - intros v h. unfold RefOqs.new, ref_usable.
    destruct (spec_sizes v) eqn:Hs; [| done]. intros [= <-]. simpl. by rewrite Hs.
  - done.
  - intros h Hh. unfold RefOqs.export_secret_key. by destruct (RefOqs.secret_key h).
  - intros d pk h Hh. unfold RefOqs.encap_secret. by destruct (RefOqs.buffer _ _).
  - intros ct h Hh. unfold RefOqs.decap_secret.
    destruct (RefOqs.secret_key h); [| done]. by destruct (RefOqs.buffer _ _).
  - intros d h pk Hh [= <-]. split; [done |]. simpl.
    exists (take 32 (resize 64 x00 d)), (drop 32 (resize 64 x00 d)).
    split; [| done]. rewrite length_take, length_resize. lia.
  - intros pk h Hh. unfold RefOqs.export_secret_key.
    by destruct (RefOqs.secret_key h).
  - intros d pk h ct ss ss' Hh.
    rewrite (ref_encap_returns d pk h Hh). simpl. intros [= <- <-].
    pose proof (ref_decap_returns d pk h Hh) as Hdec. simpl in Hdec.
    rewrite Hdec. simpl. by intros [= <-].
Qed.

Lemma RefOqs_answers : answers RefOqs.KeyEncapsulation ref_usable ref_holds.
Proof.
  split; simpl.
  - intros v [-> | [-> | ->]]; eauto.
  - intros d h _. eauto.
  - intros pk h (_ & s & z & _ & _ & Hsk). unfold RefOqs.export_secret_key.
    rewrite Hsk. eauto.
  - intros d pk h Hh. rewrite (ref_encap_returns d pk h Hh). simpl. eauto.
  - intros d pk h ct ss Hh.
    rewrite (ref_encap_returns d pk h Hh). simpl. intros [= <- <-].
    pose proof (ref_decap_returns d pk h Hh) as Hdec. simpl in Hdec.
    rewrite Hdec. simpl. eauto.
Qed.

(** ** The sizes on the reference implementation *)




(** ** The key pair that the instance generated last *)

Section RoundTrip.

Context {H : Type} (c : Oqs.Class H) (I : H → Prop) (holds : bytes → H → Prop).
Hypothesis Hrt : round_trips c I holds.

#[local] Abbreviation ready := (ready c I).

Lemma bind_ext_on {A B} (m : M (H:=H) A) (f g : A → M B) s :
  (∀ a s1, m s = (Return a, s1) → f a s1 = g a s1) →
  (m ≫= f) s = (m ≫= g) s.
Proof.
  intros Hfg. unfold mbind, M_bind.
  destruct (m s) as [[a | e] s1]; [by apply Hfg | done].
Qed.

Lemma perf_counter_self s t s' :
  perf_counter (H:=H) s = (Return t, s') → s'.1 = s.1.
Proof. destruct s as [self w]. by intros [= _ <-]. Qed.

Lemma perf_counter_returns s :
  ∃ t s', perf_counter (H:=H) s = (Return t, s') ∧ s'.1 = s.1.
Proof. destruct s as [self w]. by eexists _, _. Qed.

Lemma ready_exec call self w : ready self → ready (exec call (self, w)).1.
Proof.
  intros [Hc HI]. unfold ready.
  destruct (call_frame call self w) as (_ & _ & _ & Hcls).
  simpl in Hcls. rewrite Hcls. split; [done |].
  destruct call as [| pk | ct sk |]; simpl.
  - rewrite generate_keypair_run; simpl. rewrite Hc.
    pose proof (rt_usable_keygen c I holds Hrt (entropy w (draws w)) _ HI) as Hk.
    destruct (Oqs.generate_keypair c _ _) as [[pk | e] h]; simpl in *; [| done].
    pose proof (rt_usable_export c I holds Hrt h Hk) as He.
    by destruct (Oqs.export_secret_key c h) as [[sk | e] h'].
  - rewrite encapsulate_run. rewrite Hc.
    pose proof (rt_usable_encap c I holds Hrt (entropy w (draws w)) pk _ HI) as Hk.
    by destruct (Oqs.encap_secret c _ _ _) as [[r | e] h].
  - rewrite decapsulate_run. rewrite Hc.
    pose proof (rt_usable_decap c I holds Hrt ct _ HI) as Hk.
    by destruct (Oqs.decap_secret c _ _) as [[r | e] h].
  - done.
Qed.

Lemma reachable_ready v self : reachable (Some c) v self → ready self.
Proof.
  induction 1 as [self Hinit | self call w _ IH].
  - unfold __init__ in Hinit.
    destruct (KYBER_PARAMS !! v) as [p |]; [| done].
    destruct (Oqs.new c v) as [h |] eqn:Hnew; [| done].
    injection Hinit as <-. split; [done |]. simpl.
    by apply (rt_new c I holds Hrt v).
  - by apply ready_exec.
Qed.

(** After a key generation that returned, the object holds the key of the
    public key that was returned. *)
Lemma generate_keypair_holds self w pk sk self' w' :
  ready self →
  generate_keypair (self, w) = (Return (pk, sk), (self', w')) →
  ready self' ∧ holds pk (Oqs.handle (kem self')).
Proof.
  intros [Hc HI]. rewrite generate_keypair_run; simpl. rewrite Hc.
  pose proof (rt_usable_keygen c I holds Hrt (entropy w (draws w)) _ HI) as Hk.
  pose proof (rt_keygen c I holds Hrt (entropy w (draws w)) (Oqs.handle (kem self))) as Hh.
  destruct (Oqs.generate_keypair c _ _) as [[pk' | e] h]; simpl in *; [| done].
  pose proof (rt_usable_export c I holds Hrt h Hk) as He.
  pose proof (rt_export c I holds Hrt pk' h (Hh pk' HI eq_refl)) as Hx.
  destruct (Oqs.export_secret_key c h) as [[sk' | e] h']; simpl in *; [| done].
  intros [= <- <- <- <-]. by repeat split.
Qed.

(** A decapsulation that follows an encapsulation to the public key of the
    held key gives the encapsulated secret, whatever the secret key and the
    world it is called with. *)
Lemma decapsulate_recovers self w pk ct ss self1 w1 sk w2 ss' s3 :
  Oqs.cls (kem self) = c → holds pk (Oqs.handle (kem self)) →
  encapsulate pk (self, w) = (Return (ct, ss), (self1, w1)) →
  decapsulate ct sk (self1, w2) = (Return ss', s3) →
  ss' = ss.
Proof.
  intros Hc Hh. rewrite encapsulate_run. rewrite Hc.
  pose proof (rt_decap c I holds Hrt (entropy w (draws w)) pk (Oqs.handle (kem self))
                ct ss ss' Hh) as Hd.
  destruct (Oqs.encap_secret c _ _ _) as [[[ct' ss0] | e] h]; simpl in *; [| done].
  intros [= <- <- <- <-]. rewrite decapsulate_run. simpl. rewrite Hc.
  destruct (Oqs.decap_secret c ct' h) as [[r | e] h']; simpl in *; [| done].
  intros [= <- _]. by apply Hd.
Qed.

Lemma benchmark_loop_assert n kt et dt s :
  ready s.1 →
  benchmark_loop true n kt et dt s = benchmark_loop false n kt et dt s.
Proof.
  revert kt et dt s. induction n as [| n IH]; intros kt et dt s Hs; [done |].
  cbn [benchmark_loop].
  apply bind_ext_on. intros t1 s1 H1.
  apply bind_ext_on. intros [pk sk] s2 H2.
  apply bind_ext_on. intros t3 s3 H3.
  apply bind_ext_on. intros t4 s4 H4.
  apply bind_ext_on. intros [ct ss_enc] s5 H5.
  apply bind_ext_on. intros t6 s6 H6.
  apply bind_ext_on. intros t7 s7 H7.
  apply bind_ext_on. intros ss_dec s8 H8.
  apply bind_ext_on. intros t9 s9 H9.
  apply perf_counter_self in H1, H3, H4, H6, H7, H9.
  destruct s1 as [self1 w1], s2 as [self2 w2], s3 as [self3 w3],
    s4 as [self4 w4], s5 as [self5 w5], s6 as [self6 w6], s7 as [self7 w7].
  simpl in *. subst self1 self3 self4 self6 self7.
  apply generate_keypair_holds in H2 as [[Hc2 HI2] Hh2]; [| done].
  pose proof (decapsulate_recovers _ _ _ _ _ _ _ _ _ _ _ Hc2 Hh2 H5 H8) as ->.
  rewrite bool_decide_eq_true_2 by done. simpl.
  apply IH. rewrite H9.
  pose proof (ready_exec (CallEncapsulate pk) self2 w4 (conj Hc2 HI2)) as R5.
  simpl in R5. rewrite H5 in R5. simpl in R5.
  pose proof (ready_exec (CallDecapsulate ct sk) self5 w7 R5) as R8.
  simpl in R8. by rewrite H8 in R8.
Qed.

Hypothesis Hans : answers c I holds.

Lemma generate_keypair_answers self w :
  ready self →
  ∃ pk sk self' w', generate_keypair (self, w) = (Return (pk, sk), (self', w')).
Proof.
  intros [Hc HI]. rewrite generate_keypair_run; simpl. rewrite Hc.
  destruct (ans_keygen c I holds Hans (entropy w (draws w)) _ HI) as [pk Hpk].
  pose proof (rt_keygen c I holds Hrt (entropy w (draws w)) _ pk HI Hpk) as Hh.
  destruct (Oqs.generate_keypair c _ _) as [r h]; simpl in *. subst r.
  destruct (ans_export c I holds Hans pk h Hh) as [sk Hsk].
  destruct (Oqs.export_secret_key c h) as [r h']; simpl in *. subst r.
  by eexists _, _, _, _.
Qed.

Lemma encapsulate_answers self w pk :
  Oqs.cls (kem self) = c → holds pk (Oqs.handle (kem self)) →
  ∃ ct ss self' w', encapsulate pk (self, w) = (Return (ct, ss), (self', w')).
Proof.
  intros Hc Hh. rewrite encapsulate_run. rewrite Hc.
  destruct (ans_encap c I holds Hans (entropy w (draws w)) pk _ Hh) as (ct & ss & Hr).
  destruct (Oqs.encap_secret c _ _ _) as [r h]; simpl in *. subst r.
  by eexists _, _, _, _.
Qed.

Lemma decapsulate_answers self w pk ct ss self1 w1 sk w2 :
  Oqs.cls (kem self) = c → holds pk (Oqs.handle (kem self)) →
  encapsulate pk (self, w) = (Return (ct, ss), (self1, w1)) →
  ∃ ss' self' w', decapsulate ct sk (self1, w2) = (Return ss', (self', w')).
Proof.
  intros Hc Hh. rewrite encapsulate_run. rewrite Hc.
  pose proof (ans_decap c I holds Hans (entropy w (draws w)) pk
                (Oqs.handle (kem self)) ct ss Hh) as Hd.
  destruct (Oqs.encap_secret c _ _ _) as [[[ct' ss0] | e] h]; simpl in *; [| done].
  intros [= <- <- <- <-]. destruct (Hd eq_refl) as [ss' Hss'].
  rewrite decapsulate_run. simpl. rewrite Hc.
  destruct (Oqs.decap_secret c ct' h) as [r h']; simpl in *. subst r.
  by eexists _, _, _.
Qed.

Lemma benchmark_loop_answers debug n kt et dt s :
  ready s.1 →
  ∃ r s', benchmark_loop debug n kt et dt s = (Return r, s').
Proof.
  revert kt et dt s. induction n as [| n IH]; intros kt et dt s Hs.
  { by eexists _, _. }
  cbn [benchmark_loop]. unfold mbind, M_bind.
  destruct (perf_counter_returns s) as (t1 & s1 & -> & E1).
  rewrite <- E1 in Hs. destruct s1 as [self1 w1]. simpl in Hs.
  destruct (generate_keypair_answers self1 w1 Hs) as (pk & sk & self2 & w2 & H2).
  rewrite H2.
  apply generate_keypair_holds in H2 as [[Hc2 HI2] Hh2]; [| done].
  destruct (perf_counter_returns (self2, w2)) as (t3 & [self3 w3] & -> & E3).
  destruct (perf_counter_returns (self3, w3)) as (t4 & [self4 w4] & -> & E4).
  simpl in E3, E4. subst self3 self4.
  destruct (encapsulate_answers self2 w4 pk Hc2 Hh2) as (ct & ss & self5 & w5 & H5).
  rewrite H5.
  destruct (perf_counter_returns (self5, w5)) as (t6 & [self6 w6] & -> & E6).
  destruct (perf_counter_returns (self6, w6)) as (t7 & [self7 w7] & -> & E7).
  simpl in E6, E7. subst self6 self7.
  destruct (decapsulate_answers self2 w4 pk ct ss self5 w5 sk w7 Hc2 Hh2 H5)
    as (ss' & self8 & w8 & H8).
  rewrite H8.
  pose proof (decapsulate_recovers _ _ _ _ _ _ _ _ _ _ _ Hc2 Hh2 H5 H8) as ->.
  destruct (perf_counter_returns (self8, w8)) as (t9 & [self9 w9] & -> & E9).
  simpl in E9. subst self9.
  rewrite bool_decide_eq_true_2 by done. rewrite andb_false_r.
  apply IH. simpl.
  pose proof (ready_exec (CallEncapsulate pk) self2 w4 (conj Hc2 HI2)) as R5.
  simpl in R5. rewrite H5 in R5. simpl in R5.
  pose proof (ready_exec (CallDecapsulate ct sk) self5 w7 R5) as R8.
  simpl in R8. by rewrite H8 in R8.
Qed.

Lemma benchmark_answers debug iterations self w :
  ready self → 0 < iterations →
  ∃ d self' w', benchmark debug iterations (self, w) = (Return d, (self', w')).
Proof.
  intros Hs Hn.
  destruct (benchmark_loop_answers debug (Z.to_nat iterations) [] [] [] (self, w) Hs)
    as ([[kt et] dt] & [self' w'] & Hloop).
  unfold benchmark, mbind, M_bind. rewrite Hloop. simpl.
  apply benchmark_loop_returns in Hloop as (_ & Hkt & Het & Hdt). simpl in *.
  unfold summary, py_truediv.
  destruct (decide (iterations = 0)) as [? | _]; [lia |].
  destruct kt as [| k0 kt]; [simpl in Hkt; lia |].
  destruct et as [| e0 et]; [simpl in Het; lia |].
  destruct dt as [| d0 dt]; [simpl in Hdt; lia |].
  by eexists _, _, _.
Qed.

End RoundTrip.

(** X4: on a binding that recovers what was encapsulated to the key it
    holds, an instance recovers the secret for the key pair it generated
    last: after generate_keypair returned (pk, sk), a secret encapsulated
    to pk on that instance is returned by the decapsulate that follows,
    whatever secret key is passed to it. *)
Theorem round_trip_latest_keypair {H} (c : Oqs.Class H) (I : H → Prop)
    (holds : bytes → H → Prop) (v : string) (self self1 self2 self3 : KyberKEM H)
    (w w1 w1' w2 w2' w3 : World) (pk sk ct ss any_sk ss' : bytes) :
  round_trips c I holds →
  reachable (Some c) v self →
  generate_keypair (self, w) = (Return (pk, sk), (self1, w1)) →
  encapsulate pk (self1, w1') = (Return (ct, ss), (self2, w2)) →
  decapsulate ct any_sk (self2, w2') = (Return ss', (self3, w3)) →
  ss' = ss.
Proof.
  intros Hrt Hr Hgen Henc Hdec.
  pose proof (reachable_ready c I holds Hrt v self Hr) as Hready.
  destruct (generate_keypair_holds c I holds Hrt _ _ _ _ _ _ Hready Hgen)
    as [[Hc _] Hh].
  exact (decapsulate_recovers c I holds Hrt _ _ _ _ _ _ _ _ _ _ _ Hc Hh Henc Hdec).
Qed.

(** X7: on such a binding the assert statement of the benchmark loop never
    fires: the benchmark does the same, and returns or raises the same,
    whether or not assert statements are executed. *)
Theorem benchmark_assert_redundant {H} (c : Oqs.Class H) (I : H → Prop)
    (holds : bytes → H → Prop) (v : string) (self : KyberKEM H) (w : World)
    (iterations : Z) :
  round_trips c I holds →
  reachable (Some c) v self →
  benchmark true iterations (self, w) = benchmark false iterations (self, w).
Proof.
  intros Hrt Hr. unfold benchmark.
  apply (reachable_ready c I holds Hrt) in Hr.
  unfold mbind, M_bind.
  by rewrite (benchmark_loop_assert c I holds Hrt).
Qed.

(** ** The demonstration *)

Section MainFacts.

Context {H : Type}.

Lemma Main_bind_returns {A B} (m : Main A) (f : A → Main B) s b s' :
  (m ≫= f) s = (Return b, s') →
  ∃ a s1, m s = (Return a, s1) ∧ f a s1 = (Return b, s').
Proof.
  unfold mbind, Main_bind. destruct (m s) as [[a | e] s1]; [eauto | done].
Qed.

Lemma init_returns (oqs : option (Oqs.Class H)) v kem :
  __init__ oqs v = Return kem →
  ∃ p, KYBER_PARAMS !! v = Some p ∧ variant kem = v ∧ params kem = p.
Proof.
  unfold __init__. destruct (KYBER_PARAMS !! v) as [p |]; [| done].
  destruct oqs as [c |]; [| done]. destruct (Oqs.new c v) as [h | e]; [| done].
  intros [= <-]. by exists p.
Qed.

Lemma info_items (kem : KyberKEM H) :
  dict_item (algorithm_info kem) "nist_level" = Return (PyInt (security_level (params kem))) ∧
  dict_item (algorithm_info kem) "public_key_size" =
    Return (PyInt (public_key_bytes (params kem))) ∧
  dict_item (algorithm_info kem) "ciphertext_size" =
    Return (PyInt (ciphertext_bytes (params kem))).
Proof. unfold algorithm_info, dict_item. repeat split; vm_compute; reflexivity. Qed.

(** What a round of the loop has printed when it is through. *)
Lemma main_variant_returns debug (oqs : option (Oqs.Class H)) v w out w' out' :
  main_variant debug oqs v (w, out) = (Return tt, (w', out')) →
  ∃ p, KYBER_PARAMS !! v = Some p ∧
    skeleton <$> out' =
    (skeleton <$> out) ++
    demo_lines v (pretty (security_level p)) (pretty (public_key_bytes p))
      (pretty (ciphertext_bytes p)).
Proof.
  unfold main_variant. intros Hrun.
  apply Main_bind_returns in Hrun as ([] & s1 & H1 & Hrun). injection H1 as <-.
  apply Main_bind_returns in Hrun as (kem & s2 & H2 & Hrun).
  unfold eval in H2. injection H2 as H2 <-.
  apply init_returns in H2 as (p & Hp & Hv & Hpar). exists p. split; [done |].
  apply Main_bind_returns in Hrun as ([info kem1] & s3 & H3 & Hrun).
  unfold call, get_algorithm_info in H3. injection H3 as <- <- <-.
  destruct (info_items kem) as (Hl & Hk & Hc). rewrite Hpar in Hl, Hk, Hc.
  apply Main_bind_returns in Hrun as (level & s4 & H4 & Hrun).
  unfold eval in H4. rewrite Hl in H4. injection H4 as <- <-.
  apply Main_bind_returns in Hrun as ([] & s5 & H5 & Hrun). injection H5 as <-.
  apply Main_bind_returns in Hrun as (pkb & s6 & H6 & Hrun).
  unfold eval in H6. rewrite Hk in H6. injection H6 as <- <-.
  apply Main_bind_returns in Hrun as ([] & s7 & H7 & Hrun). injection H7 as <-.
  apply Main_bind_returns in Hrun as (ctb & s8 & H8 & Hrun).
  unfold eval in H8. rewrite Hc in H8. injection H8 as <- <-.
  apply Main_bind_returns in Hrun as ([] & s9 & H9 & Hrun). injection H9 as <-.
  apply Main_bind_returns in Hrun as ([] & s10 & H10 & Hrun). injection H10 as <-.
  apply Main_bind_returns in Hrun as ([results kem2] & [w11 out11] & H11 & Hrun).
  unfold call in H11.
  destruct (benchmark debug 100 (kem, w)) as [[d | e] [kem' wb]]; [| done].
  injection H11 as <- <- <- <-.
  apply Main_bind_returns in Hrun as (x1 & s12 & H12 & Hrun).
  unfold eval in H12. injection H12 as _ <-.
  apply Main_bind_returns in Hrun as ([] & s13 & H13 & Hrun). injection H13 as <-.
  apply Main_bind_returns in Hrun as (x2 & s14 & H14 & Hrun).
  unfold eval in H14. injection H14 as _ <-.
  apply Main_bind_returns in Hrun as ([] & s15 & H15 & Hrun). injection H15 as <-.
  apply Main_bind_returns in Hrun as (x3 & s16 & H16 & Hrun).
  unfold eval in H16. injection H16 as _ <-.
  injection Hrun as <- <-.
  rewrite !fmap_app. simpl. by rewrite <- !app_assoc.
Qed.

Lemma main_returns debug (oqs : option (Oqs.Class H)) w out w' out' :
  main debug oqs (w, out) = (Return tt, (w', out')) →
  skeleton <$> out' =
  (skeleton <$> out) ++
  ("=== CRYSTALS-Kyber KEM Demo ===" +:+ nl) ::
  demo_lines "Kyber512" "128" "800" "768" ++
  demo_lines "Kyber768" "192" "1184" "1088" ++
  demo_lines "Kyber1024" "256" "1568" "1568".
Proof.
  unfold main. intros Hrun.
  apply Main_bind_returns in Hrun as ([] & s0 & H0 & Hrun). injection H0 as <-.
  cbn [main_loop] in Hrun.
  apply Main_bind_returns in Hrun as ([] & [w1 out1] & H1 & Hrun).
  apply Main_bind_returns in Hrun as ([] & [w2 out2] & H2 & Hrun).
  apply Main_bind_returns in Hrun as ([] & [w3 out3] & H3 & Hrun).
  injection Hrun as <- <-.
  apply main_variant_returns in H1 as (p1 & Hp1 & E1).
  apply main_variant_returns in H2 as (p2 & Hp2 & E2).
  apply main_variant_returns in H3 as (p3 & Hp3 & E3).
  vm_compute in Hp1, Hp2, Hp3.
  injection Hp1 as <-. injection Hp2 as <-. injection Hp3 as <-.
  rewrite E3, E2, E1, fmap_app. simpl. rewrite <- !app_assoc. reflexivity.
Qed.

Lemma stat_items (d : gmap string StatVal) :
  dom d =
    list_to_set
      [ "variant"; "iterations";
        "keygen_avg_ms"; "keygen_min_ms"; "keygen_max_ms";
        "encap_avg_ms"; "encap_min_ms"; "encap_max_ms";
        "decap_avg_ms"; "decap_min_ms"; "decap_max_ms" ] →
  ∃ x1 x2 x3,
    dict_item d "keygen_avg_ms" = Return x1 ∧
    dict_item d "encap_avg_ms" = Return x2 ∧
    dict_item d "decap_avg_ms" = Return x3.
Proof.
  intros Hdom. unfold dict_item.
  assert (∀ k, k ∈ dom d → ∃ x, d !! k = Some x) as Hin
    by (intros k Hk; by apply elem_of_dom in Hk).
  destruct (Hin "keygen_avg_ms") as [x1 ->]; [rewrite Hdom; set_solver |].
  destruct (Hin "encap_avg_ms") as [x2 ->]; [rewrite Hdom; set_solver |].
  destruct (Hin "decap_avg_ms") as [x3 ->]; [rewrite Hdom; set_solver |].
  by eexists _, _, _.
Qed.

Section MainAnswers.

Context (c : Oqs.Class H) (I : H → Prop) (holds : bytes → H → Prop).
Hypothesis Hrt : round_trips c I holds.
Hypothesis Hans : answers c I holds.

Lemma main_variant_answers debug v w out :
  known_variant v →
  ∃ w' out', main_variant debug (Some c) v (w, out) = (Return tt, (w', out')).
Proof.
  intros Hv. unfold main_variant, mbind, Main_bind, print, eval, call.
  destruct (KYBER_PARAMS_lookup_known v Hv) as (p & Hp & _).
  destruct (ans_new c I holds Hans v Hv) as [h Hh].
  unfold __init__. rewrite Hp, Hh. unfold get_algorithm_info.
  set (kem := mkKEM v p (Oqs.mkObject c h) module_name).
  destruct (info_items kem) as (-> & -> & ->).
  assert (ready c I kem) as Hready.
  { split; [done |]. by apply (rt_new c I holds Hrt v). }
  destruct (benchmark_answers c I holds Hrt Hans debug 100 kem w Hready)
    as (d & kem' & wb & Hb); [lia |].
  rewrite Hb.
  apply benchmark_shape in Hb as (_ & Hdom & _).
  destruct (stat_items d Hdom) as (x1 & x2 & x3 & -> & -> & ->).
  by eexists _, _.
Qed.

Lemma main_answers debug w out :
  ∃ w' out', main debug (Some c) (w, out) = (Return tt, (w', out')).
Proof.
  unfold main. cbn [main_loop]. unfold mbind at 1. unfold Main_bind at 1.
  unfold print at 1.
  set (out0 := out ++ _).
  destruct (main_variant_answers debug "Kyber512" w out0) as (w1 & out1 & H1).
  { by left. }
  destruct (main_variant_answers debug "Kyber768" w1 out1) as (w2 & out2 & H2).
  { right. by left. }
  destruct (main_variant_answers debug "Kyber1024" w2 out2) as (w3 & out3 & H3).
  { right. by right. }
  unfold mbind, Main_bind. rewrite H1, H2, H3. by eexists _, _.
Qed.

End MainAnswers.

End MainFacts.


Lemma round_trip_latest_keypair_witness :
  ∃ pk sk ct ss ss' self1 w1 self2 w2 self3 w3,
    generate_keypair
      (mkKEM "Kyber512" (mkParams "Kyber512" 128 800 1632 768 32)
         (Oqs.mkObject RefOqs.KeyEncapsulation (RefOqs.mkHandle "Kyber512" None))
         module_name, RefOqs.world0) = (Return (pk, sk), (self1, w1)) ∧
    encapsulate pk (self1, w1) = (Return (ct, ss), (self2, w2)) ∧
    decapsulate ct [] (self2, w2) = (Return ss', (self3, w3)) ∧
    ss' = ss.
Proof.
  set (self := mkKEM "Kyber512" _ _ _).
  assert (reachable (Some RefOqs.KeyEncapsulation) "Kyber512" self) as Hr
    by (apply reach_init; reflexivity).
  pose proof (reachable_ready _ _ _ RefOqs_round_trips _ _ Hr) as Hready.
  destruct (generate_keypair_answers _ _ _ RefOqs_round_trips RefOqs_answers
              self RefOqs.world0 Hready) as (pk & sk & self1 & w1 & Hgen).
  destruct (generate_keypair_holds _ _ _ RefOqs_round_trips _ _ _ _ _ _ Hready Hgen)
    as [[Hc _] Hh].
  destruct (encapsulate_answers _ _ _ RefOqs_answers self1 w1 pk Hc Hh)
    as (ct & ss & self2 & w2 & Henc).
  destruct (decapsulate_answers _ _ _ RefOqs_answers self1 w1 pk ct ss self2 w2 [] w2
              Hc Hh Henc) as (ss' & self3 & w3 & Hdec).
  exists pk, sk, ct, ss, ss', self1, w1, self2, w2, self3, w3.
  repeat split; [exact Hgen | exact Henc | exact Hdec |].
  exact (round_trip_latest_keypair RefOqs.KeyEncapsulation ref_usable ref_holds
           "Kyber512" self self1 self2 self3 RefOqs.world0 w1 w1 w2 w2 w3
           pk sk ct ss [] ss' RefOqs_round_trips Hr Hgen Henc Hdec).
Defined.

Lemma benchmark_assert_redundant_witness :
  let self := mkKEM "Kyber768" (mkParams "Kyber768" 192 1184 2400 1088 32)
                (Oqs.mkObject RefOqs.KeyEncapsulation (RefOqs.mkHandle "Kyber768" None))
                module_name in
  benchmark true 1000 (self, RefOqs.world0) = benchmark false 1000 (self, RefOqs.world0).
Proof.
  intros self.
  apply (benchmark_assert_redundant RefOqs.KeyEncapsulation ref_usable ref_holds
           "Kyber768" self RefOqs.world0 1000 RefOqs_round_trips).
  apply reach_init. reflexivity.
Defined.

Lemma benchmark_returns_shape_witness :
  ∃ d self' w',
    benchmark true 1000
      (mkKEM "Kyber768" (mkParams "Kyber768" 192 1184 2400 1088 32)
         (Oqs.mkObject RefOqs.KeyEncapsulation (RefOqs.mkHandle "Kyber768" None))
         module_name, RefOqs.world0) = (Return d, (self', w')) ∧
    d !! "variant" = Some (StatStr "Kyber768") ∧
    d !! "iterations" = Some (StatInt 1000) ∧
    length (log w') = 3000%nat.
Proof.
  set (self := mkKEM "Kyber768" _ _ _).
  assert (reachable (Some RefOqs.KeyEncapsulation) "Kyber768" self) as Hr
    by (apply reach_init; reflexivity).
  pose proof (reachable_ready _ _ _ RefOqs_round_trips _ _ Hr) as Hready.
  destruct (benchmark_answers _ _ _ RefOqs_round_trips RefOqs_answers true 1000
              self RefOqs.world0 Hready) as (d & self' & w' & Hb); [lia |].
  exists d, self', w'. split; [exact Hb |].
  destruct (benchmark_returns_shape true 1000 self self' RefOqs.world0 w' d Hb)
    as (_ & _ & Hv & Hi & _ & _ & Hlog).
  split; [exact Hv |]. split; [exact Hi |]. exact Hlog.
Defined.

(** X10: on a binding that answers and recovers what was encapsulated to
    the key it holds, benchmark returns its statistics for every positive
    number of iterations, on every instance built by the constructor and
    whatever was called on it before. *)
Theorem benchmark_completes {H} (c : Oqs.Class H) (I : H → Prop)
    (holds : bytes → H → Prop) (v : string) (self : KyberKEM H) (w : World)
    (debug : bool) (iterations : Z) :
  round_trips c I holds → answers c I holds →
  reachable (Some c) v self →
  0 < iterations →
  ∃ d self' w', benchmark debug iterations (self, w) = (Return d, (self', w')).
Proof.
  intros Hrt Hans Hr Hn.
  apply (benchmark_answers c I holds Hrt Hans); [| done].
  exact (reachable_ready c I holds Hrt v self Hr).
Qed.

Lemma benchmark_completes_witness :
  ∃ d self' w',
    benchmark true 100
      (mkKEM "Kyber1024" (mkParams "Kyber1024" 256 1568 3168 1568 32)
         (Oqs.mkObject RefOqs.KeyEncapsulation (RefOqs.mkHandle "Kyber1024" None))
         module_name, RefOqs.world0) = (Return d, (self', w')).
Proof.
  apply (benchmark_completes RefOqs.KeyEncapsulation ref_usable ref_holds "Kyber1024"
           _ RefOqs.world0 true 100 RefOqs_round_trips RefOqs_answers).
  - apply reach_init. reflexivity.
  - lia.
Defined.

(** X8: without the binding, main prints the banner and the heading of the
    first parameter set and then raises the RuntimeError of the
    constructor; nothing is logged and the clock is not read. *)
Theorem main_without_binding {H} (debug : bool) (w : World) (out : list OutLine) :
  main debug (@None (Oqs.Class H)) (w, out) =
  (Raise (RuntimeError "liboqs-python not available. Cannot initialize Kyber."),
   (w, out ++ [ OutText ("=== CRYSTALS-Kyber KEM Demo ===" +:+ nl);
                OutText (nl +:+ "--- Kyber512 ---") ])).
Proof.
  change (out ++ [_; _]) with (out ++ [OutText ("=== CRYSTALS-Kyber KEM Demo ===" +:+ nl)]
                                   ++ [OutText (nl +:+ "--- Kyber512 ---")]).
  rewrite app_assoc. reflexivity.
Qed.

(** X9: when main returns, it has printed exactly the banner and, for
    Kyber512, Kyber768 and Kyber1024 in this order, the heading, the
    security level (AES-128, 192, 256), the sizes of public key (800, 1184,
    1568) and ciphertext (768, 1088, 1568), the announcement of the
    benchmark and the three average times. *)
Theorem main_output {H} (debug : bool) (oqs : option (Oqs.Class H))
    (w w' : World) (out' : list OutLine) :
  main debug oqs (w, []) = (Return tt, (w', out')) →
  skeleton <$> out' =
  ("=== CRYSTALS-Kyber KEM Demo ===" +:+ nl) ::
  demo_lines "Kyber512" "128" "800" "768" ++
  demo_lines "Kyber768" "192" "1184" "1088" ++
  demo_lines "Kyber1024" "256" "1568" "1568".
Proof. intros Hrun. by apply main_returns in Hrun. Qed.

Lemma main_output_witness :
  ∃ w' out',
    main true (Some RefOqs.KeyEncapsulation) (RefOqs.world0, []) = (Return tt, (w', out')) ∧
    skeleton <$> out' =
    ("=== CRYSTALS-Kyber KEM Demo ===" +:+ nl) ::
    demo_lines "Kyber512" "128" "800" "768" ++
    demo_lines "Kyber768" "192" "1184" "1088" ++
    demo_lines "Kyber1024" "256" "1568" "1568".
Proof.
  destruct (main_answers _ _ _ RefOqs_round_trips RefOqs_answers true RefOqs.world0 [])
    as (w' & out' & Hrun).
  exists w', out'. split; [exact Hrun |].
  exact (main_output true (Some RefOqs.KeyEncapsulation) RefOqs.world0 w' out' Hrun).
Defined.

(** X11: on a binding that answers and recovers what was encapsulated to
    the key it holds, main runs through: it raises nothing. *)
Theorem main_completes {H} (c : Oqs.Class H) (I : H → Prop)
    (holds : bytes → H → Prop) (debug : bool) (w : World) (out : list OutLine) :
  round_trips c I holds → answers c I holds →
  ∃ w' out', main debug (Some c) (w, out) = (Return tt, (w', out')).
Proof. intros Hrt Hans. by apply (main_answers c I holds Hrt Hans). Qed.

Lemma main_completes_witness :
  ∃ w' out',
    main true (Some RefOqs.KeyEncapsulation) (RefOqs.world0, []) = (Return tt, (w', out')).
Proof.
  exact (main_completes RefOqs.KeyEncapsulation ref_usable ref_holds true
           RefOqs.world0 [] RefOqs_round_trips RefOqs_answers).
Defined.
